(** * Verification of the CI helper scripts of shared-ai-standards

    Two decision functions are embedded here:
    - [shouldCollapsePlan] (Terraform plan comment helper), which classifies
      plan text with JavaScript regular expressions;
    - [analyzeCoverageResults] with [parseCodeowners] and
      [checkCodeownersApproval]
      (.github/actions/diff-cover-check/analyze-coverage-results.mjs).

    Strings are Stdlib [string]s; a character stands for one UTF-16 code
    unit of the JavaScript string, restricted to the range 0..255. *)

From Stdlib Require Import Ascii String List Bool Arith Lia ZArith QArith DecimalString.
Import ListNotations.
Open Scope string_scope.
Open Scope nat_scope.

(** ** JavaScript regular expressions

    The regular expressions used by the code are built from literal
    characters, character classes, greedy or lazy repetition of a character
    class ([\s+], [\w*], [.+?], ...), negative lookahead, capturing groups and
    the anchors [^] and [$] of the [m] flag.  [mt] is a backtracking matcher
    in continuation-passing style that follows the ECMAScript semantics of
    these constructs: alternatives are tried in the order the engine tries
    them (most repetitions first for greedy, fewest first for lazy), and the
    first successful one wins. *)

Module Regex.

Inductive re : Type :=
| REmpty
| RChar (c : ascii)
| RClass (p : ascii -> bool)
| RRep (p : ascii -> bool) (min : nat) (greedy : bool)
| RSeq (r1 r2 : re)
| RBol
| REolM
| RNegLook (r : re)
| RGroup (r : re).

(** A match state: the character before the current position (for [^]),
    the remaining input and the captures closed so far, in group order. *)
Definition result : Type := (option ascii * string * list string)%type.
Definition cont : Type := option ascii -> string -> list string -> option result.

Fixpoint drop (n : nat) (s : string) : string :=
  match n, s with
  | O, _ => s
  | S n', String _ s' => drop n' s'
  | S _, EmptyString => EmptyString
  end.

Fixpoint take (n : nat) (s : string) : string :=
  match n, s with
  | O, _ => EmptyString
  | S n', String c s' => String c (take n' s')
  | S _, EmptyString => EmptyString
  end.

(** Number of leading characters of [s] in the class [p]. *)
Fixpoint run (p : ascii -> bool) (s : string) : nat :=
  match s with
  | EmptyString => O
  | String c s' => if p c then S (run p s') else O
  end.

(** The previous character after consuming [j] characters of [s]. *)
Definition prev_after (pv : option ascii) (s : string) (j : nat) : option ascii :=
  match j with
  | O => pv
  | S j' => match String.get j' s with Some c => Some c | None => pv end
  end.

Fixpoint first_some {A : Type} (f : nat -> option A) (l : list nat) : option A :=
  match l with
  | [] => None
  | j :: l' => match f j with Some x => Some x | None => first_some f l' end
  end.

(** Line terminators of JavaScript within 0..255: LF and CR. *)
Definition is_lt (c : ascii) : bool :=
  Ascii.eqb c (ascii_of_nat 10) || Ascii.eqb c (ascii_of_nat 13).

(** [\s]: white space and line terminators (within 0..255). *)
Definition is_space (c : ascii) : bool :=
  let n := nat_of_ascii c in
  ((9 <=? n) && (n <=? 13)) || (n =? 32) || (n =? 160).

(** [\w] = [[A-Za-z0-9_]]. *)
Definition is_digit (c : ascii) : bool :=
  let n := nat_of_ascii c in (48 <=? n) && (n <=? 57).
Definition is_word (c : ascii) : bool :=
  let n := nat_of_ascii c in
  is_digit c || ((65 <=? n) && (n <=? 90)) || ((97 <=? n) && (n <=? 122))
  || (n =? 95).

(** [.] without the [s] flag. *)
Definition is_dot (c : ascii) : bool := negb (is_lt c).

Definition is_bol (pv : option ascii) : bool :=
  match pv with None => true | Some c => is_lt c end.

Definition is_eol (s : string) : bool :=
  match s with EmptyString => true | String c _ => is_lt c end.

(** The continuation that ends a match. *)
Definition done : cont := fun pv s cs => Some (pv, s, cs).

(** The counts a repetition [p{mn,}] tries, in order. *)
Definition counts (n mn : nat) (greedy : bool) : list nat :=
  if greedy then rev (seq mn (n + 1 - mn)) else seq mn (n + 1 - mn).

Fixpoint mt (r : re) (pv : option ascii) (s : string) (cs : list string)
  (k : cont) {struct r} : option result :=
  match r with
  | REmpty => k pv s cs
  | RChar c =>
      match s with
      | String c' s' => if Ascii.eqb c c' then k (Some c') s' cs else None
      | EmptyString => None
      end
  | RClass p =>
      match s with
      | String c' s' => if p c' then k (Some c') s' cs else None
      | EmptyString => None
      end
  | RRep p mn g =>
      first_some (fun j => k (prev_after pv s j) (drop j s) cs)
        (counts (run p s) mn g)
  | RSeq r1 r2 => mt r1 pv s cs (fun pv' s' cs' => mt r2 pv' s' cs' k)
  | RBol => if is_bol pv then k pv s cs else None
  | REolM => if is_eol s then k pv s cs else None
  | RNegLook r1 =>
      match mt r1 pv s cs done with
      | Some _ => None
      | None => k pv s cs
      end
  | RGroup r1 =>
      mt r1 pv s cs
        (fun pv' s' cs' =>
           k pv' s' (app cs' [take (String.length s - String.length s') s]))
  end.

(** [re.exec] from one position onwards: the first start position (from
    the left) at which the expression matches. *)
Fixpoint search (r : re) (pv : option ascii) (s : string) : option result :=
  match mt r pv s [] done with
  | Some x => Some x
  | None =>
      match s with
      | EmptyString => None
      | String c s' => search r (Some c) s'
      end
  end.

(** [re.test(s)] for a non-global expression. *)
Definition test (r : re) (s : string) : bool :=
  match search r None s with Some _ => true | None => false end.

(** The captures of every match of a global expression, each search
    resuming where the previous match ended ([matchAll], or an [exec] loop
    on [lastIndex]).  The expressions used with it never match the empty
    string, so [length s + 1] rounds suffice. *)
Fixpoint all_matches (fuel : nat) (r : re) (pv : option ascii) (s : string)
  : list (list string) :=
  match fuel with
  | O => []
  | S f =>
      match search r pv s with
      | None => []
      | Some (pv', s', cs) => cs :: all_matches f r pv' s'
      end
  end.

Definition match_all (r : re) (s : string) : list (list string) :=
  all_matches (S (String.length s)) r None s.

(** Every character of [s] is in the class [p]. *)
Fixpoint all_chars (p : ascii -> bool) (s : string) : bool :=
  match s with
  | EmptyString => true
  | String c s' => p c && all_chars p s'
  end.

(** A repetition of [p] cannot go on into [s]. *)
Definition stops (p : ascii -> bool) (s : string) : bool :=
  match s with EmptyString => true | String c _ => negb (p c) end.

(** The character before the position reached after reading [s]. *)
Fixpoint last_after (pv : option ascii) (s : string) : option ascii :=
  match s with
  | EmptyString => pv
  | String c s' => last_after (Some c) s'
  end.

Fixpoint seqs (l : list re) : re :=
  match l with
  | [] => REmpty
  | [r] => r
  | r :: l' => RSeq r (seqs l')
  end.

(** A literal string. *)
Fixpoint lit (s : string) : re :=
  match s with
  | EmptyString => REmpty
  | String c EmptyString => RChar c
  | String c s' => RSeq (RChar c) (lit s')
  end.

Definition plus (p : ascii -> bool) : re := RRep p 1 true.
Definition star (p : ascii -> bool) : re := RRep p 0 true.
Definition lazy_plus (p : ascii -> bool) : re := RRep p 1 false.

End Regex.
Import Regex.

(** ** The plan classifier (shouldCollapsePlan) *)

Module Plan.

(** [/Plan: (\d+) to add, (\d+) to change, (\d+) to destroy/] *)
Definition summaryPattern : re :=
  seqs [lit "Plan: "; RGroup (plus is_digit); lit " to add, ";
        RGroup (plus is_digit); lit " to change, ";
        RGroup (plus is_digit); lit " to destroy"].

Definition known_after_apply : re := lit "(known after apply)".

(** [/~\s+(\w+)\s*=\s*.+?\s*->\s*(?!\s*\(known after apply\)).*/g] *)
Definition changePattern : re :=
  seqs [RChar "~"; plus is_space; RGroup (plus is_word); star is_space;
        RChar "="; star is_space; lazy_plus is_dot; star is_space; lit "->";
        star is_space; RNegLook (RSeq (star is_space) known_after_apply);
        star is_dot].

(** [/^\s+\+\s+\w+\s*=\s*(?!\s*\(known after apply\)).+/m] *)
Definition additionPattern : re :=
  seqs [RBol; plus is_space; RChar "+"; plus is_space; plus is_word;
        star is_space; RChar "="; star is_space;
        RNegLook (RSeq (star is_space) known_after_apply); plus is_dot].

Definition is_open_bracket (c : ascii) : bool :=
  Ascii.eqb c "[" || Ascii.eqb c "{".

(** [/^\s+-\s+\w+\s*=\s*(?!.*->)(?!.*[\[{]\s*$).+$/m] *)
Definition deletionPattern : re :=
  seqs [RBol; plus is_space; RChar "-"; plus is_space; plus is_word;
        star is_space; RChar "="; star is_space;
        RNegLook (RSeq (star is_dot) (lit "->"));
        RNegLook (seqs [star is_dot; RClass is_open_bracket; star is_space; REolM]);
        plus is_dot; REolM].

(** [parseInt] of a string of decimal digits. *)
Definition parseInt_digits (s : string) : N :=
  fold_left (fun acc c => (10 * acc + N.of_nat (nat_of_ascii c - 48))%N)
    (list_ascii_of_string s) 0%N.

(** [String.prototype.includes]. *)
Fixpoint includes (s pat : string) : bool :=
  String.prefix pat s ||
  match s with EmptyString => false | String _ s' => includes s' pat end.

Record ClassificationResult := {
  shouldCollapse : bool;
  (** [summaryMatch && ...]: [None] stands for [null] (no summary line). *)
  hasOnlyUpdates : option bool;
  changedAttrs : list string;
  hasRealAdditions : bool;
  hasRealDeletions : bool;
  hasResourceChanges : bool
}.

Definition codeAttrs : list string := ["content_sha256"; "content"].

Definition set_has (s : list string) (x : string) : bool :=
  existsb (String.eqb x) s.

Definition shouldCollapsePlan (plan : string) : ClassificationResult :=
  let summaryMatch := search summaryPattern None plan in
  let hasOnlyUpdates :=
    match summaryMatch with
    | Some (_, _, [add; change; destroy]) =>
        Some (String.eqb add "0" && String.eqb destroy "0"
              && (0 <? parseInt_digits change)%N)
    | Some _ => Some false
    | None => None
    end in
  let changedAttrs :=
    map (fun cs => hd EmptyString cs) (match_all changePattern plan) in
  let hasRealAdditions := test additionPattern plan in
  let hasRealDeletions := test deletionPattern plan in
  (* hasOnlyUpdates && !hasRealAdditions && ... : null stays null *)
  let isWorkerCodeOnly :=
    match hasOnlyUpdates with
    | Some true =>
        Some (negb hasRealAdditions && negb hasRealDeletions
              && (0 <? length changedAttrs)
              && forallb (set_has codeAttrs) changedAttrs)
    | other => other
    end in
  let hasResourceChanges :=
    includes plan "will be created" || includes plan "will be destroyed"
    || includes plan "must be replaced" in
  let shouldCollapse :=
    match isWorkerCodeOnly with
    | Some true => negb hasResourceChanges
    | _ => false
    end in
  {| shouldCollapse := shouldCollapse; hasOnlyUpdates := hasOnlyUpdates;
     changedAttrs := changedAttrs; hasRealAdditions := hasRealAdditions;
     hasRealDeletions := hasRealDeletions;
     hasResourceChanges := hasResourceChanges |}.

End Plan.

(** ** The coverage gate (analyze-coverage-results.mjs) *)

Module Coverage.

(** *** Values read from files and from the action context *)

Set Warnings "-register-all".

(** A value produced by [JSON.parse]; numbers are the decimal numbers
    written in the report. *)
Inductive json : Type :=
| JNull
| JBool (b : bool)
| JNum (q : Q)
| JStr (s : string)
| JArr (l : list json)
| JObj (kvs : list (string * json)).

(** [JSON.parse] keeps the last of duplicated keys. *)
Definition lookup_key (kvs : list (string * json)) (k : string) : option json :=
  fold_left (fun acc kv => if String.eqb (fst kv) k then Some (snd kv) else acc)
    kvs None.

(** Property access [data.k]: [inl tt] is the [TypeError] thrown on [null],
    [inr None] is [undefined]. *)
Definition get_prop (v : json) (k : string) : unit + option json :=
  match v with
  | JNull => inl tt
  | JObj kvs => inr (lookup_key kvs k)
  | _ => inr None
  end.

(** A number as JavaScript keeps it in a result object. *)
Inductive jsnum : Type :=
| NaN
| Num (q : Q).

Record Review := { review_login : string; review_state : string }.

Record PullRequest := {
  pr_number : option Z;               (** [pull_request.number] *)
  pr_labels : option (list string);   (** names of [pull_request.labels] *)
  pr_user_login : option string       (** [pull_request.user?.login] *)
}.

Record Context := { payload_pull_request : option PullRequest }.

(** What the code reads from the outside world: the reviews returned by
    [github.paginate(listReviews)], the CODEOWNERS file ([None]: unreadable)
    and the parsed coverage report ([None]: unreadable file or invalid
    JSON, on which [JSON.parse] or [readFileSync] throws). *)
Record Env := {
  env_reviews : list Review;
  env_codeowners : option string;
  env_report : option json
}.

(** The calls to the outside world, in the order they are made. *)
Inductive Effect : Type :=
| FetchReviews (pull_number : Z)
| ReadCodeowners.

(** *** parseCodeowners *)

Definition nl : ascii := ascii_of_nat 10.

(** [s.split(c)] *)
Fixpoint split_on (c : ascii) (s : string) : list string :=
  match s with
  | EmptyString => [EmptyString]
  | String c' s' =>
      if Ascii.eqb c c' then EmptyString :: split_on c s'
      else match split_on c s' with
           | [] => [String c' EmptyString]
           | w :: ws => String c' w :: ws
           end
  end.

(** [!s.trim()]: the string is empty or all white space. *)
Definition blank (s : string) : bool :=
  forallb is_space (list_ascii_of_string s).

(** [[\w.\-]] *)
Definition is_owner_char (c : ascii) : bool :=
  is_word c || Ascii.eqb c "." || Ascii.eqb c "-".

(** [/@([\w.\-]+)/g] *)
Definition ownerPattern : re := RSeq (RChar "@") (RGroup (plus is_owner_char)).

(** [Set.prototype.add]: a JavaScript [Set] keeps insertion order. *)
Definition set_add (s : list string) (x : string) : list string :=
  if Plan.set_has s x then s else s ++ [x].

Definition parse_line (owners : list string) (line : string) : list string :=
  if String.prefix "#" line || blank line then owners
  else
    let lineWithoutComment := hd EmptyString (split_on "#" line) in
    fold_left (fun acc cs => set_add acc (hd EmptyString cs))
      (match_all ownerPattern lineWithoutComment) owners.

(** [parseCodeowners]: [None] is the [null] returned when the file cannot be
    read; [Some owners] lists the members of the returned [Set]. *)
Definition parseCodeowners (file : option string) : option (list string) :=
  match file with
  | None => None
  | Some content => Some (fold_left parse_line (split_on nl content) [])
  end.

(** *** checkCodeownersApproval *)

Definition meaningfulStates : list string :=
  ["APPROVED"; "CHANGES_REQUESTED"; "DISMISSED"].

(** [Map.prototype.set]: an existing key keeps its place, a new key goes
    last. *)
Fixpoint map_set (m : list (string * string)) (k v : string)
  : list (string * string) :=
  match m with
  | [] => [(k, v)]
  | (k', v') :: m' =>
      if String.eqb k' k then (k, v) :: m' else (k', v') :: map_set m' k v
  end.

(** [s.replace(/-bot$/, '')]: without the [m] flag [$] is the end of the
    string, so only a final ["-bot"] is removed. *)
Definition strip_bot (s : string) : string :=
  let n := String.length s in
  if (4 <=? n) && String.eqb (substring (n - 4) 4 s) "-bot"
  then substring 0 (n - 4) s else s.

(** [!pull_number] on a number: [undefined] and [0] are falsy. *)
Definition truthy_number (n : option Z) : option Z :=
  match n with
  | Some z => if Z.eqb z 0 then None else Some z
  | None => None
  end.

Definition pull_number (ctx : Context) : option Z :=
  match payload_pull_request ctx with
  | Some pr => pr_number pr
  | None => None
  end.

Definition pr_author (ctx : Context) : option string :=
  match payload_pull_request ctx with
  | Some pr => pr_user_login pr
  | None => None
  end.

(** [codeowners.has(prAuthor)]: [has(undefined)] is false. *)
Definition has_opt (owners : list string) (x : option string) : bool :=
  match x with Some a => Plan.set_has owners a | None => false end.

(** The [latestReviews] map built from the reviews that survive the
    self-approval filter. *)
Definition latestReviews (validReviews : list Review) : list (string * string) :=
  fold_left
    (fun m review =>
       if existsb (String.eqb (review_state review)) meaningfulStates
       then map_set m (review_login review) (review_state review) else m)
    validReviews [].

(** [checkCodeownersApproval(github, context)]: the boolean it resolves to
    and the calls it makes. *)
Definition checkCodeownersApproval (ctx : Context) (env : Env)
  : bool * list Effect :=
  match truthy_number (pull_number ctx) with
  | None => (false, [])
  | Some n =>
      let reviews := env_reviews env in
      let effects := [FetchReviews n; ReadCodeowners] in
      let prAuthor := pr_author ctx in
      match parseCodeowners (env_codeowners env) with
      | None => (false, effects)
      | Some codeowners =>
          if Nat.eqb (length codeowners) 0 then (false, effects)
          else
            let prAuthorBase :=
              match prAuthor with Some a => strip_bot a | None => EmptyString end in
            let isSoleDev :=
              Nat.eqb (length codeowners) 1 &&
              (has_opt codeowners prAuthor || Plan.set_has codeowners prAuthorBase) in
            if isSoleDev then (true, effects)
            else
              let validReviews :=
                filter (fun r => negb (has_opt [review_login r] prAuthor)) reviews in
              (existsb (fun us => String.eqb (snd us) "APPROVED"
                                  && Plan.set_has codeowners (fst us))
                 (latestReviews validReviews), effects)
      end
  end.

(** *** getCoverageData *)

(** The destructured result: on the failure paths the object has no
    [crashFallback] field, and [undefined] is falsy, written [false]. *)
Record CoverageData := {
  percent : Q;
  totalLines : Q;
  parseError : bool;
  crashFallback : bool
}.

Definition getCoverageData (report : option json) : CoverageData :=
  let failed := {| percent := 0%Q; totalLines := 0%Q; parseError := true;
                   crashFallback := false |} in
  match report with
  | None => failed
  | Some data =>
      match get_prop data "total_percent_covered", get_prop data "total_num_lines" with
      | inr (Some (JNum p)), inr (Some (JNum n)) =>
          {| percent := p; totalLines := n; parseError := false;
             crashFallback :=
               match get_prop data "crash_fallback" with
               | inr (Some (JBool true)) => true
               | _ => false
               end |}
      | _, _ => failed
      end
  end.

(** *** analyzeCoverageResults *)

Record TelemetryEvent := {
  event : string;
  actual_coverage : Q;
  ev_threshold : Q;
  has_approval : bool
}.

(** The returned object: a field the object literal omits is [None]. *)
Record GateDecision := {
  shouldFail : option bool;
  coveragePercent : option jsnum;
  reason : option string;
  overrideApplied : option bool;
  telemetryEvents : list TelemetryEvent
}.

Section Gate.

(** [Number.prototype.toString], used only inside reason messages. *)
Variable num_to_string : Q -> string.

Definition labels (ctx : Context) : list string :=
  match payload_pull_request ctx with
  | Some pr => match pr_labels pr with Some ls => ls | None => [] end
  | None => []
  end.

(** The em dash of the crash message lies outside the modelled range of
    code units; the literal holds its UTF-8 bytes. *)
Definition crashReason : string :=
  "diff-cover exited non-zero (LCOV parse error or crash) — coverage check skipped is not permitted".

Definition analyzeCoverageResults (threshold : Q) (ctx : Context) (env : Env)
  : GateDecision * list Effect :=
  let data := getCoverageData (env_report env) in
  let coveragePercent := percent data in
  if parseError data then
    ({| shouldFail := Some true; coveragePercent := Some NaN;
        reason := Some "Coverage report missing or invalid JSON";
        overrideApplied := None; telemetryEvents := [] |}, [])
  else if crashFallback data then
    ({| shouldFail := Some true; coveragePercent := Some NaN;
        reason := Some crashReason;
        overrideApplied := None; telemetryEvents := [] |}, [])
  else if Qeq_bool (totalLines data) 0 then
    ({| shouldFail := Some false; coveragePercent := Some (Num 100);
        reason := Some "No executable lines to cover (doc/config-only PR)";
        overrideApplied := None; telemetryEvents := [] |}, [])
  else
    let hasOverrideLabel := existsb (String.eqb "coverage-override") (labels ctx) in
    let belowThreshold := negb (Qle_bool threshold coveragePercent) in
    if negb belowThreshold then
      ({| shouldFail := Some false; coveragePercent := Some (Num coveragePercent);
          reason := None; overrideApplied := None; telemetryEvents := [] |}, [])
    else if hasOverrideLabel then
      let (hasApproval, effects) := checkCodeownersApproval ctx env in
      if negb hasApproval then
        ({| shouldFail := Some true; coveragePercent := Some (Num coveragePercent);
            reason := Some "coverage-override label requires CODEOWNERS approval";
            overrideApplied := None;
            telemetryEvents :=
              [{| event := "coverage_override_without_approval";
                  actual_coverage := coveragePercent; ev_threshold := threshold;
                  has_approval := false |}] |}, effects)
      else
        ({| shouldFail := Some false; coveragePercent := Some (Num coveragePercent);
            reason := Some ("Coverage " ++ num_to_string coveragePercent ++ "% below "
                            ++ num_to_string threshold ++ "% (override applied)");
            overrideApplied := Some true;
            telemetryEvents :=
              [{| event := "coverage_override_applied";
                  actual_coverage := coveragePercent; ev_threshold := threshold;
                  has_approval := true |}] |}, effects)
    else
      ({| shouldFail := Some true; coveragePercent := Some (Num coveragePercent);
          reason := Some ("Coverage " ++ num_to_string coveragePercent ++ "% below "
                          ++ num_to_string threshold ++ "% threshold");
          overrideApplied := None; telemetryEvents := [] |}, []).

End Gate.

End Coverage.

(** ** Telemetry (sendTelemetry, analyze-coverage-results.mjs) *)

Module Telemetry.
Import Coverage.

(** [`${n}`] for an integer. *)
Definition z_to_string (z : Z) : string :=
  DecimalString.NilZero.string_of_int (Z.to_int z).

(** The fields of the action [context] that go into a telemetry record. *)
Record RunContext := {
  run_workflow : string;    (** [context.workflow] *)
  run_id : Z;               (** [context.runId] *)
  run_sha : string;         (** [context.sha] *)
  run_ref : string;         (** [context.ref] *)
  run_payload : Context     (** [context.payload] *)
}.

(** One record of the posted array: [{...eventData, timestamp, workflow,
    run_id, sha, ref, pr_number}]. *)
Record Payload := {
  pl_event : TelemetryEvent;
  pl_timestamp : string;
  pl_workflow : string;
  pl_run_id : Z;
  pl_sha : string;
  pl_ref : string;
  pl_pr_number : option Z   (** [pull_request?.number] *)
}.

(** What [await fetch(...)] gives: a response with its status, or a thrown
    error with its message. *)
Inductive FetchOutcome : Type :=
| Response (status : Z)
| FetchError (message : string).

(** [response.ok]: the status is in 200..299. *)
Definition response_ok (status : Z) : bool :=
  (200 <=? status)%Z && (status <=? 299)%Z.

(** The calls made: [core.warning(msg)] and the POST to the ingest endpoint
    with its [Authorization] header and its body. *)
Inductive TEffect : Type :=
| Warning (msg : string)
| Post (authorization : string) (body : list Payload).

Section Send.

(** [new Date().toISOString()] and the outcome of [fetch] at the [i]-th
    request. *)
Variable clock : nat -> string.
Variable net : nat -> FetchOutcome.

Fixpoint send_events (token : string) (rc : RunContext) (i : nat)
  (events : list TelemetryEvent) : list TEffect :=
  match events with
  | [] => []
  | eventData :: rest =>
      let payload :=
        [{| pl_event := eventData; pl_timestamp := clock i;
            pl_workflow := run_workflow rc; pl_run_id := run_id rc;
            pl_sha := run_sha rc; pl_ref := run_ref rc;
            pl_pr_number := pull_number (run_payload rc) |}] in
      let warned :=
        match net i with
        | Response status =>
            if response_ok status then []
            else [Warning ("Failed to send Axiom event: " ++ z_to_string status)]
        | FetchError message => [Warning ("Error sending Axiom event: " ++ message)]
        end in
      Post ("Bearer " ++ token) payload :: app warned (send_events token rc (S i) rest)
  end.

(** [sendTelemetry({events, axiomToken, context, core})]: the token is
    [None] when unset; the empty string is falsy as well. *)
Definition sendTelemetry (events : list TelemetryEvent) (axiomToken : option string)
  (rc : RunContext) : list TEffect :=
  match axiomToken with
  | Some (String _ _ as token) => send_events token rc 0 events
  | _ => [Warning "AXIOM_TOKEN not set - skipping telemetry"]
  end.

End Send.

End Telemetry.

(** ** curl_with_retry (the bash helper appended to the same file) *)

Module CurlRetry.

(** Bash arithmetic is on 64-bit signed integers and wraps around. *)
Definition wrap64 (z : Z) : Z := ((z + 2 ^ 63) mod 2 ^ 64 - 2 ^ 63)%Z.

(** [$?]: the exit status of a process, 0..255. *)
Definition exit_status (code : Z) : Z := (code mod 256)%Z.

(** [case "$exit_code" in 7|28|56)]. *)
Definition retryable (code : Z) : bool :=
  (code =? 7)%Z || (code =? 28)%Z || (code =? 56)%Z.

(** [$(( CURL_RETRY_BASE_DELAY * (1 << (attempt - 1)) ))]; a shift by 64 or
    more, which C leaves undefined, is taken as the wrapped mathematical
    value. *)
Definition backoff_delay (base attempt : Z) : Z :=
  wrap64 (base * wrap64 (Z.shiftl 1 (attempt - 1))).

(** What a call leaves: its return status, what [cat] printed, the lines
    written to stderr, the [sleep] arguments and the number of [curl]
    runs. *)
Record CurlRun := {
  ret_code : Z;
  out : string;
  warnings : list string;
  sleeps : list Z;
  calls : nat
}.

Section Retry.

(** [curl "$@"] at a given attempt number: its exit code and its stdout. *)
Variable curl : Z -> Z * string.
(** [$CURL_RETRY_MAX] as written in the environment, and its arithmetic
    value; the same for [$CURL_RETRY_BASE_DELAY]'s value. *)
Variable max_text : string.
Variable max : Z.
Variable base : Z.

Definition z_to_string (z : Z) : string := Telemetry.z_to_string z.

(** The [while (( attempt <= CURL_RETRY_MAX ))] loop, [fuel] being the
    number of iterations left; [file] is the content of [$stdout_file]. *)
Fixpoint retry_loop (fuel : nat) (attempt exit_code : Z) (file : string)
  (err : list string) (sl : list Z) (n : nat) : CurlRun :=
  match fuel with
  | O =>
      {| ret_code := exit_code; out := file;
         warnings := app err ["::warning::curl failed after " ++ max_text
                              ++ " attempts (last exit code: "
                              ++ z_to_string exit_code ++ ")"];
         sleeps := sl; calls := n |}
  | S fuel' =>
      let (code, stdout) := curl attempt in
      let exit_code := exit_status code in
      if (exit_code =? 0)%Z then
        {| ret_code := 0; out := stdout; warnings := err; sleeps := sl;
           calls := S n |}
      else if negb (retryable exit_code) then
        {| ret_code := exit_code; out := stdout; warnings := err; sleeps := sl;
           calls := S n |}
      else if (attempt <? max)%Z then
        let delay := backoff_delay base attempt in
        retry_loop fuel' (attempt + 1) exit_code stdout
          (app err ["::warning::curl failed (exit " ++ z_to_string exit_code
                    ++ "), retry " ++ z_to_string attempt ++ "/" ++ max_text
                    ++ " in " ++ z_to_string delay ++ "s"])
          (app sl [delay]) (S n)
      else retry_loop fuel' (attempt + 1) exit_code stdout err sl (S n)
  end.

(** [attempt] runs from 1 while [attempt <= CURL_RETRY_MAX]: [max]
    iterations at most; [$stdout_file] starts empty ([mktemp]). *)
Definition curl_with_retry : CurlRun :=
  retry_loop (Z.to_nat max) 1 0 EmptyString [] [] 0.

End Retry.

End CurlRetry.

(** ** The Terraform plan comment (formatPlanComment) *)

Module PlanComment.
Import Plan Coverage.

(** An issue comment as [listComments] returns it. *)
Record Comment := { comment_id : Z; comment_body : string }.

(** The comments of the pull request, in listing order, and the id the
    server gives the next created comment. *)
Record Store := { comments : list Comment; next_id : Z }.

Definition delete_comment (id : Z) (st : Store) : Store :=
  {| comments := filter (fun c => negb (comment_id c =? id)%Z) (comments st);
     next_id := next_id st |}.

Definition update_comment (id : Z) (body : string) (st : Store) : Store :=
  {| comments := map (fun c => if (comment_id c =? id)%Z
                               then {| comment_id := id; comment_body := body |}
                               else c) (comments st);
     next_id := next_id st |}.

Definition create_comment (body : string) (st : Store) : Store :=
  {| comments := app (comments st)
                   [{| comment_id := next_id st; comment_body := body |}];
     next_id := (next_id st + 1)%Z |}.

(** The calls made, in order. *)
Inductive Call : Type :=
| ConsoleLog (msg : string)
| ListComments (issue : Z)
| DeleteComment (id : Z)
| UpdateComment (id : Z) (body : string)
| CreateComment (issue : Z) (body : string).

Inductive Outcome : Type :=
| Returned
| Threw (message : string).

Record Params := {
  issue_number : option Z;    (** [context.issue?.number] *)
  plan_file : option string;  (** the plan file; [None]: [readFileSync] throws *)
  exitcode : string;
  marker : option string;     (** [None]: [undefined] *)
  enableCollapse : bool;      (** its truthiness *)
  actor : string;
  moduleName : string
}.

Definition NL : string := String nl EmptyString.

Definition markerError : string := "marker is required and cannot be empty".

Definition readErrorPlan : string := "Error reading plan output. Check workflow logs.".

(** The comment body; [plan.slice(0, 60000)] keeps the first 60000 code
    units.  The check mark of the collapsed form is written in the source
    as the three characters of its mis-decoded UTF-8; the literal holds
    their UTF-8 bytes. *)
Definition comment_text (collapse : bool) (m moduleName plan timestamp actor : string)
  : string :=
  if collapse then
    m ++ NL ++ "#### Terraform Plan (" ++ moduleName ++ ")" ++ NL ++ NL
    ++ "âœ… Worker build successful. Code changes will deploy on merge." ++ NL ++ NL
    ++ "<details><summary>Plan details</summary>" ++ NL ++ NL ++ "```" ++ NL
    ++ take 60000 plan ++ NL ++ "```" ++ NL ++ "</details>" ++ NL ++ NL
    ++ "*Updated: " ++ timestamp ++ " by @" ++ actor ++ "*"
  else
    m ++ NL ++ "#### Terraform Plan (" ++ moduleName ++ ")" ++ NL ++ NL
    ++ "```" ++ NL ++ take 60000 plan ++ NL ++ "```" ++ NL ++ NL
    ++ "*Updated: " ++ timestamp ++ " by @" ++ actor ++ "*".

(** [formatPlanComment({github, context, ...})] on the pull request's
    comments; [timestamp] is [new Date().toISOString()]. *)
Definition formatPlanComment (p : Params) (timestamp : string) (st : Store)
  : Outcome * Store * list Call :=
  match truthy_number (issue_number p) with
  | None => (Returned, st, [ConsoleLog "Skipping PR comment: not a pull_request event"])
  | Some issue =>
      match marker p with
      | None => (Threw markerError, st, [])
      | Some m =>
          if blank m then (Threw markerError, st, [])
          else if String.eqb (exitcode p) "0" then
            let matching := filter (fun c => includes (comment_body c) m) (comments st) in
            (Returned,
             fold_left (fun s c => delete_comment (comment_id c) s) matching st,
             ListComments issue :: map (fun c => DeleteComment (comment_id c)) matching)
          else
            let plan := match plan_file p with Some t => t | None => readErrorPlan end in
            let collapse :=
              if enableCollapse p then Plan.shouldCollapse (shouldCollapsePlan plan)
              else false in
            let body := comment_text collapse m (moduleName p) plan timestamp (actor p) in
            match find (fun c => includes (comment_body c) m) (comments st) with
            | Some existing =>
                (Returned, update_comment (comment_id existing) body st,
                 [ListComments issue; UpdateComment (comment_id existing) body])
            | None =>
                (Returned, create_comment body st,
                 [ListComments issue; CreateComment issue body])
            end
      end
  end.

End PlanComment.

(** * Reading aids: the spec's notion of latest review state, a lookup in
    the [latestReviews] map, and sample inputs *)

Module Spec.
Import Coverage.

(** The latest meaningful review state of [u], as the spec describes it:
    reviews in fetch order, the last one by [u] whose state is APPROVED,
    CHANGES_REQUESTED or DISMISSED wins; other states are skipped. *)
Definition latest_meaningful_state (reviews : list Review) (u : string)
  : option string :=
  fold_left
    (fun acc r =>
       if String.eqb (review_login r) u
          && existsb (String.eqb (review_state r)) meaningfulStates
       then Some (review_state r) else acc)
    reviews None.

(** [Map.prototype.get]. *)
Fixpoint map_get (m : list (string * string)) (k : string) : option string :=
  match m with
  | [] => None
  | (k', v) :: m' => if String.eqb k' k then Some v else map_get m' k
  end.

Definition latest_step (m : list (string * string)) (review : Review) :=
  if existsb (String.eqb (review_state review)) meaningfulStates
  then map_set m (review_login review) (review_state review) else m.

Definition spec_step (u : string) (acc : option string) (r : Review) :=
  if String.eqb (review_login r) u
     && existsb (String.eqb (review_state r)) meaningfulStates
  then Some (review_state r) else acc.

Definition valid_review (prAuthor : option string) (r : Review) : bool :=
  negb (has_opt [review_login r] prAuthor).

(** A plan line adding an attribute whose value is computed. *)
Definition placeholder_line (ind name : string) : string :=
  ind ++ "+ " ++ name ++ " = (known after apply)".

Definition no_fmt : Q -> string := fun _ => EmptyString.

Definition pr_ctx (labels : list string) (author : string) : Context :=
  {| payload_pull_request :=
       Some {| pr_number := Some 7%Z; pr_labels := Some labels;
               pr_user_login := Some author |} |}.

Definition report (kvs : list (string * json)) (codeowners : string)
  (reviews : list Review) : Env :=
  {| env_reviews := reviews; env_codeowners := Some codeowners;
     env_report := Some (JObj kvs) |}.

End Spec.

(** Views on the results used by the statements below. *)

Module Views.
Import Coverage.

(** The same inputs with another review list. *)
Definition with_reviews (env : Env) (rs : list Review) : Env :=
  {| env_reviews := rs; env_codeowners := env_codeowners env;
     env_report := env_report env |}.

(** A text made of lines. *)
Definition lines (ls : list string) : string :=
  fold_right (fun l acc => l ++ String nl acc) EmptyString ls.

(** What one match of [/@([\w.\-]+)/] captures. *)
Definition owner_capture (cs : list string) : Prop :=
  exists w, cs = [w] /\ w <> EmptyString /\ all_chars is_owner_char w = true.

(** The set of owners as [parseCodeowners] should leave it: distinct,
    non-empty names of [[\w.\-]] characters. *)
Definition good_owners (owners : list string) : Prop :=
  NoDup owners /\ Forall (fun o => o <> EmptyString /\ all_chars is_owner_char o = true) owners.

(** The records posted by [sendTelemetry], the [Authorization] headers it
    sends and the number of warnings it logs. *)
Definition posted_payloads (effs : list Telemetry.TEffect) : list Telemetry.Payload :=
  flat_map (fun e => match e with
                     | Telemetry.Post _ body => body
                     | Telemetry.Warning _ => []
                     end) effs.

Definition post_headers (effs : list Telemetry.TEffect) : list string :=
  flat_map (fun e => match e with
                     | Telemetry.Post a _ => [a]
                     | Telemetry.Warning _ => []
                     end) effs.

Definition warning_count (effs : list Telemetry.TEffect) : nat :=
  length (filter (fun e => match e with
                           | Telemetry.Warning _ => true
                           | Telemetry.Post _ _ => false
                           end) effs).

(** A request that did not succeed: a non-2xx status or a thrown error. *)
Definition send_failed (o : Telemetry.FetchOutcome) : bool :=
  match o with
  | Telemetry.Response status => negb (Telemetry.response_ok status)
  | Telemetry.FetchError _ => true
  end.

(** The comments whose body contains the marker, and the others. *)
Definition marked (m : string) (cs : list PlanComment.Comment) : list PlanComment.Comment :=
  filter (fun c => Plan.includes (PlanComment.comment_body c) m) cs.

Definition unmarked (m : string) (cs : list PlanComment.Comment) : list PlanComment.Comment :=
  filter (fun c => negb (Plan.includes (PlanComment.comment_body c) m)) cs.

(** The calls of [formatPlanComment] that reach GitHub, and the comment
    bodies it writes. *)
Definition github_calls (calls : list PlanComment.Call) : list PlanComment.Call :=
  filter (fun c => match c with PlanComment.ConsoleLog _ => false | _ => true end) calls.

Definition written_bodies (calls : list PlanComment.Call) : list string :=
  flat_map (fun c => match c with
                     | PlanComment.UpdateComment _ b => [b]
                     | PlanComment.CreateComment _ b => [b]
                     | _ => []
                     end) calls.

End Views.

(** * Properties of the coverage gate *)

Module GateProofs.
Import Coverage Spec.

(** The crash flag as [getCoverageData] reads it. *)
Lemma crash_flag_true kvs :
  lookup_key kvs "crash_fallback" = Some (JBool true) ->
  match get_prop (JObj kvs) "crash_fallback" with
  | inr (Some (JBool true)) => true | _ => false end = true.
Proof. simpl. intros ->. reflexivity. Qed.

Lemma crash_flag_false kvs :
  lookup_key kvs "crash_fallback" <> Some (JBool true) ->
  match get_prop (JObj kvs) "crash_fallback" with
  | inr (Some (JBool true)) => true | _ => false end = false.
Proof.
  simpl. destruct (lookup_key kvs "crash_fallback") as [[| [|] | | | |]|];
    congruence.
Qed.

(** The data read from a report with both numeric fields. *)
Lemma getCoverageData_numeric kvs p n :
  lookup_key kvs "total_percent_covered" = Some (JNum p) ->
  lookup_key kvs "total_num_lines" = Some (JNum n) ->
  getCoverageData (Some (JObj kvs)) =
  {| percent := p; totalLines := n; parseError := false;
     crashFallback :=
       match get_prop (JObj kvs) "crash_fallback" with
       | inr (Some (JBool true)) => true | _ => false end |}.
Proof. intros Hp Hn. unfold getCoverageData. simpl. rewrite Hp, Hn. reflexivity. Qed.

(** C1 (as written, refuted): the report [{total_num_lines: 0}] has no
    [total_percent_covered], is rejected as invalid and fails. *)
Lemma C1_counterexample :
  let d := fst (analyzeCoverageResults no_fmt 80
                  (pr_ctx [] "alice") (report [("total_num_lines", JNum 0)] "" [])) in
  shouldFail d = Some true /\ coveragePercent d = Some NaN.
Proof. vm_compute. split; reflexivity. Qed.

(** C1 (amended): a readable report whose [total_percent_covered] and
    [total_num_lines] are numbers, with [total_num_lines = 0] and no true
    [crash_fallback], passes with [coveragePercent = 100], whatever the
    threshold, labels and reviews. *)
Theorem C1_zero_lines_pass fmt threshold ctx env kvs p n :
  env_report env = Some (JObj kvs) ->
  lookup_key kvs "total_percent_covered" = Some (JNum p) ->
  lookup_key kvs "total_num_lines" = Some (JNum n) ->
  (n == 0)%Q ->
  lookup_key kvs "crash_fallback" <> Some (JBool true) ->
  shouldFail (fst (analyzeCoverageResults fmt threshold ctx env)) = Some false /\
  coveragePercent (fst (analyzeCoverageResults fmt threshold ctx env)) = Some (Num 100).
Proof.
  intros Hr Hp Hn Hz Hc. unfold analyzeCoverageResults. rewrite Hr.
  rewrite (getCoverageData_numeric kvs p n Hp Hn), (crash_flag_false kvs Hc).
  cbn [parseError crashFallback totalLines].
  apply Qeq_bool_iff in Hz. rewrite Hz. split; reflexivity.
Qed.

Lemma C1_zero_lines_pass_witness :
  let kvs := [("total_percent_covered", JNum 0); ("total_num_lines", JNum 0)] in
  shouldFail (fst (analyzeCoverageResults no_fmt 80 (pr_ctx [] "alice")
                     (report kvs "" []))) = Some false /\
  coveragePercent (fst (analyzeCoverageResults no_fmt 80 (pr_ctx [] "alice")
                          (report kvs "" []))) = Some (Num 100).
Proof.
  intros kvs. apply (C1_zero_lines_pass no_fmt 80 (pr_ctx [] "alice")
                       (report kvs "" []) kvs 0 0);
    [reflexivity | reflexivity | reflexivity | reflexivity | discriminate].
Defined.

(** C3: a report whose [crash_fallback] is [true] always fails, for every
    threshold, label set, review list and CODEOWNERS file. *)
Theorem C3_crash_always_fails fmt threshold ctx env kvs :
  env_report env = Some (JObj kvs) ->
  lookup_key kvs "crash_fallback" = Some (JBool true) ->
  shouldFail (fst (analyzeCoverageResults fmt threshold ctx env)) = Some true.
Proof.
  intros Hr Hc. unfold analyzeCoverageResults. rewrite Hr.
  unfold getCoverageData.
  destruct (get_prop (JObj kvs) "total_percent_covered") as [|[[]|]];
    try reflexivity;
  destruct (get_prop (JObj kvs) "total_num_lines") as [|[[]|]];
    try reflexivity.
  cbn [parseError crashFallback]. rewrite (crash_flag_true kvs Hc). reflexivity.
Qed.

Lemma C3_crash_always_fails_witness :
  shouldFail (fst (analyzeCoverageResults no_fmt 0
                     (pr_ctx ["coverage-override"] "alice")
                     (report [("total_percent_covered", JNum 100);
                              ("total_num_lines", JNum 3);
                              ("crash_fallback", JBool true)] "* @alice" []))) = Some true.
Proof. apply C3_crash_always_fails with (kvs := [("total_percent_covered", JNum 100);
                              ("total_num_lines", JNum 3);
                              ("crash_fallback", JBool true)]); reflexivity.
Defined.

(** Every branch of [analyzeCoverageResults] sets [shouldFail]. *)
Lemma shouldFail_always_set fmt threshold ctx env :
  exists b, shouldFail (fst (analyzeCoverageResults fmt threshold ctx env)) = Some b.
Proof.
  unfold analyzeCoverageResults.
  destruct (existsb (String.eqb "coverage-override") (labels ctx)),
    (checkCodeownersApproval ctx env) as [[] effs];
  destruct (getCoverageData (env_report env)) as [p n [] []];
  cbn [parseError crashFallback totalLines percent]; eauto;
  destruct (Qeq_bool n 0), (Qle_bool threshold p); cbn; eauto.
Qed.

(** C5 (code bug): [shouldFail] is set on every branch, but the branch for
    coverage at or above the threshold returns [{shouldFail: false,
    coveragePercent, telemetryEvents}] without a [reason]: at coverage 90,
    threshold 80 the decision has no [reason] field. *)
Theorem C5_reason_missing_above_threshold :
  (forall fmt threshold ctx env,
     exists b, shouldFail (fst (analyzeCoverageResults fmt threshold ctx env)) = Some b) /\
  let d := fst (analyzeCoverageResults no_fmt 80 (pr_ctx [] "alice")
                  (report [("total_percent_covered", JNum 90);
                           ("total_num_lines", JNum 10)] "" [])) in
  shouldFail d = Some false /\ reason d = None.
Proof.
  split.
  - exact shouldFail_always_set.
  - vm_compute. split; reflexivity.
Qed.

(** C10: outside a pull request (no truthy [pull_request.number])
    [checkCodeownersApproval] resolves to [false] before any read or fetch,
    and the gate never applies an override there. *)
Theorem C10_no_pull_request fmt threshold ctx env :
  truthy_number (pull_number ctx) = None ->
  checkCodeownersApproval ctx env = (false, []) /\
  overrideApplied (fst (analyzeCoverageResults fmt threshold ctx env)) <> Some true.
Proof.
  intros Hpn.
  assert (Hc : checkCodeownersApproval ctx env = (false, [])).
  { unfold checkCodeownersApproval. rewrite Hpn. reflexivity. }
  split; [exact Hc |].
  unfold analyzeCoverageResults. rewrite Hc.
  destruct (existsb (String.eqb "coverage-override") (labels ctx));
  destruct (getCoverageData (env_report env)) as [p n [] []];
  cbn [parseError crashFallback totalLines percent]; try discriminate;
  destruct (Qeq_bool n 0), (Qle_bool threshold p); cbn; discriminate.
Qed.

Lemma C10_no_pull_request_witness :
  let ctx := {| payload_pull_request :=
                  Some {| pr_number := None; pr_labels := Some ["coverage-override"];
                          pr_user_login := Some "alice" |} |} in
  let env := report [("total_percent_covered", JNum 10); ("total_num_lines", JNum 10)]
               "* @alice" [] in
  checkCodeownersApproval ctx env = (false, []) /\
  overrideApplied (fst (analyzeCoverageResults no_fmt 80 ctx env)) <> Some true.
Proof. intros ctx env. apply C10_no_pull_request. reflexivity. Defined.

(** The solo-developer exception of [checkCodeownersApproval]. *)
Lemma sole_owner_approves ctx env a m :
  truthy_number (pull_number ctx) <> None ->
  pr_author ctx = Some a ->
  parseCodeowners (env_codeowners env) = Some [m] ->
  m = a \/ m = strip_bot a ->
  fst (checkCodeownersApproval ctx env) = true.
Proof.
  intros Hpn Ha Ho Hm. unfold checkCodeownersApproval.
  destruct (truthy_number (pull_number ctx)) as [n|]; [|congruence].
  rewrite Ha, Ho. cbn [length Nat.eqb andb].
  unfold has_opt, Plan.set_has, existsb.
  destruct Hm as [-> | ->]; rewrite String.eqb_refl; cbn;
    [reflexivity | now rewrite orb_true_r].
Qed.

(** C7: when the parsed owner set is exactly the PR author (or the author
    without a [-bot] suffix), approval is granted whatever the reviews; an
    under-threshold report with the [coverage-override] label then passes
    with [overrideApplied = true]. *)
Theorem C7_sole_codeowner_override fmt threshold ctx env a m :
  truthy_number (pull_number ctx) <> None ->
  pr_author ctx = Some a ->
  parseCodeowners (env_codeowners env) = Some [m] ->
  m = a \/ m = strip_bot a ->
  fst (checkCodeownersApproval ctx env) = true /\
  (forall kvs p n,
     env_report env = Some (JObj kvs) ->
     lookup_key kvs "total_percent_covered" = Some (JNum p) ->
     lookup_key kvs "total_num_lines" = Some (JNum n) ->
     ~ (n == 0)%Q ->
     lookup_key kvs "crash_fallback" <> Some (JBool true) ->
     (p < threshold)%Q ->
     In "coverage-override" (labels ctx) ->
     shouldFail (fst (analyzeCoverageResults fmt threshold ctx env)) = Some false /\
     overrideApplied (fst (analyzeCoverageResults fmt threshold ctx env)) = Some true).
Proof.
  intros Hpn Ha Ho Hm.
  pose proof (sole_owner_approves ctx env a m Hpn Ha Ho Hm) as Happ.
  split; [exact Happ |].
  intros kvs p n Hr Hp Hn Hz Hc Hlt Hl.
  unfold analyzeCoverageResults. rewrite Hr.
  rewrite (getCoverageData_numeric kvs p n Hp Hn), (crash_flag_false kvs Hc).
  cbn [parseError crashFallback totalLines percent].
  destruct (Qeq_bool n 0) eqn:E; [apply Qeq_bool_iff in E; contradiction |].
  assert (Hb : Qle_bool threshold p = false).
  { destruct (Qle_bool threshold p) eqn:E2; [|reflexivity].
    apply Qle_bool_iff in E2. exfalso. apply (Qlt_not_le p threshold); assumption. }
  rewrite Hb.
  assert (Hlab : existsb (String.eqb "coverage-override") (labels ctx) = true).
  { apply existsb_exists. exists "coverage-override". split; [exact Hl | reflexivity]. }
  rewrite Hlab.
  destruct (checkCodeownersApproval ctx env) as [b effs]. cbn in Happ. subst b.
  split; reflexivity.
Qed.

Lemma C7_sole_codeowner_override_witness :
  let ctx := pr_ctx ["coverage-override"] "alice-bot" in
  let env := report [("total_percent_covered", JNum 70); ("total_num_lines", JNum 10)]
               "* @alice" [{| review_login := "bob"; review_state := "CHANGES_REQUESTED" |}] in
  fst (checkCodeownersApproval ctx env) = true /\
  shouldFail (fst (analyzeCoverageResults no_fmt 80 ctx env)) = Some false /\
  overrideApplied (fst (analyzeCoverageResults no_fmt 80 ctx env)) = Some true.
Proof.
  intros ctx env.
  destruct (C7_sole_codeowner_override no_fmt 80 ctx env "alice-bot" "alice")
    as [H1 H2]; [discriminate | reflexivity | reflexivity | right; reflexivity |].
  split; [exact H1 |].
  apply (H2 [("total_percent_covered", JNum 70); ("total_num_lines", JNum 10)]
            70%Q 10%Q); try reflexivity; try discriminate.
  left. reflexivity.
Defined.

(** ** The [latestReviews] map *)

Lemma set_has_In owners u : Plan.set_has owners u = true <-> In u owners.
Proof.
  unfold Plan.set_has. rewrite existsb_exists. split.
  - intros [x [Hx Heq]]. apply String.eqb_eq in Heq. subst. exact Hx.
  - intros H. exists u. split; [exact H | apply String.eqb_refl].
Qed.

Lemma map_get_set m k v u :
  map_get (map_set m k v) u = if String.eqb k u then Some v else map_get m u.
Proof.
  induction m as [| [k' v'] m IH]; cbn.
  - reflexivity.
  - destruct (String.eqb_spec k' k) as [-> | Hne]; cbn.
    + destruct (String.eqb k u); reflexivity.
    + rewrite IH. destruct (String.eqb_spec k' u) as [-> | Hne'];
        destruct (String.eqb_spec k u); congruence.
Qed.

Lemma map_set_keys m k v x :
  In x (map fst (map_set m k v)) <-> x = k \/ In x (map fst m).
Proof.
  induction m as [| [k' v'] m IH]; cbn.
  - firstorder congruence.
  - destruct (String.eqb_spec k' k) as [-> | Hne]; cbn; [firstorder congruence |].
    rewrite IH. firstorder congruence.
Qed.

Lemma map_set_nodup m k v :
  NoDup (map fst m) -> NoDup (map fst (map_set m k v)).
Proof.
  induction m as [| [k' v'] m IH]; cbn; intros Hnd.
  - constructor; [intros [] | constructor].
  - inversion Hnd as [| ? ? Hnin Hnd']; subst.
    destruct (String.eqb_spec k' k) as [-> | Hne]; cbn.
    + constructor; assumption.
    + constructor; [| exact (IH Hnd')].
      rewrite map_set_keys. intros [H | H]; [congruence | contradiction].
Qed.

Lemma map_get_In m u v : map_get m u = Some v -> In (u, v) m.
Proof.
  induction m as [| [k' v'] m IH]; cbn; [discriminate |].
  destruct (String.eqb_spec k' u) as [-> | _].
  - intros [= ->]. left. reflexivity.
  - intros H. right. exact (IH H).
Qed.

Lemma In_map_get m u v : NoDup (map fst m) -> In (u, v) m -> map_get m u = Some v.
Proof.
  induction m as [| [k' v'] m IH]; cbn; [intros _ [] |].
  intros Hnd Hin. inversion Hnd as [| ? ? Hnin Hnd']; subst.
  destruct Hin as [[= -> ->] | Hin].
  - rewrite String.eqb_refl. reflexivity.
  - destruct (String.eqb_spec k' u) as [-> | _]; [| exact (IH Hnd' Hin)].
    exfalso. apply Hnin. apply (in_map fst) in Hin. exact Hin.
Qed.

Lemma map_get_latest rs m u :
  map_get (fold_left latest_step rs m) u = fold_left (spec_step u) rs (map_get m u).
Proof.
  revert m. induction rs as [| r rs IH]; intros m; cbn; [reflexivity |].
  rewrite IH. f_equal. unfold latest_step, spec_step.
  destruct (existsb (String.eqb (review_state r)) meaningfulStates);
    rewrite ?andb_true_r, ?andb_false_r; [| reflexivity].
  rewrite map_get_set. reflexivity.
Qed.

Lemma latest_nodup rs m :
  NoDup (map fst m) -> NoDup (map fst (fold_left latest_step rs m)).
Proof.
  revert m. induction rs as [| r rs IH]; intros m Hnd; cbn; [exact Hnd |].
  apply IH. unfold latest_step.
  destruct (existsb _ _); [apply map_set_nodup |]; exact Hnd.
Qed.

Lemma latestReviews_get rs u :
  map_get (latestReviews rs) u = latest_meaningful_state rs u.
Proof. exact (map_get_latest rs [] u). Qed.

(** A state recorded for [u] comes from a review by [u]. *)
Lemma spec_fold_from_review rs acc u v :
  fold_left (spec_step u) rs acc = Some v ->
  acc = Some v \/ exists r, In r rs /\ review_login r = u.
Proof.
  revert acc. induction rs as [| r rs IH]; intros acc H; cbn [fold_left] in H;
    [left; exact H |].
  destruct (IH _ H) as [Hacc | [r' [Hin Hl]]].
  - unfold spec_step in Hacc.
    destruct (String.eqb_spec (review_login r) u) as [Hl | _]; cbn in Hacc.
    + right. exists r. split; [left; reflexivity | exact Hl].
    + left. exact Hacc.
  - right. exists r'. split; [right; exact Hin | exact Hl].
Qed.

(** Dropping reviews by other logins does not change [u]'s latest state. *)
Lemma spec_fold_filter (keep : Review -> bool) rs acc u :
  (forall r, keep r = false -> review_login r <> u) ->
  fold_left (spec_step u) (filter keep rs) acc = fold_left (spec_step u) rs acc.
Proof.
  intros Hk. revert acc. induction rs as [| r rs IH]; intros acc; cbn; [reflexivity |].
  destruct (keep r) eqn:E; cbn; rewrite IH; [reflexivity |].
  f_equal. unfold spec_step.
  destruct (String.eqb_spec (review_login r) u) as [Hl | _]; [| reflexivity].
  exfalso. exact (Hk r E Hl).
Qed.

Lemma valid_review_false prAuthor r u :
  Some u <> prAuthor -> valid_review prAuthor r = false -> review_login r <> u.
Proof.
  unfold valid_review, has_opt, Plan.set_has. destruct prAuthor as [a|];
    cbn [existsb negb]; [| discriminate].
  rewrite orb_false_r. intros Hne Hv Hl. subst u.
  destruct (String.eqb_spec a (review_login r)); [congruence | discriminate].
Qed.

Lemma valid_review_true prAuthor r :
  valid_review prAuthor r = true -> Some (review_login r) <> prAuthor.
Proof.
  unfold valid_review, has_opt, Plan.set_has. destruct prAuthor as [a|];
    cbn [existsb negb]; [| discriminate].
  rewrite orb_false_r. intros Hv Heq. injection Heq as Heq.
  rewrite Heq, String.eqb_refl in Hv. discriminate.
Qed.

(** C6: with two or more owners, approval holds exactly when some owner
    other than the PR author has APPROVED as the latest meaningful state
    of their reviews in fetch order. *)
Theorem C6_approval_iff_latest_owner_approved ctx env owners :
  truthy_number (pull_number ctx) <> None ->
  parseCodeowners (env_codeowners env) = Some owners ->
  2 <= length owners ->
  fst (checkCodeownersApproval ctx env) = true <->
  exists u, Some u <> pr_author ctx /\ In u owners /\
            latest_meaningful_state (env_reviews env) u = Some "APPROVED".
Proof.
  intros Hpn Ho Hlen. unfold checkCodeownersApproval.
  destruct (truthy_number (pull_number ctx)) as [n|]; [|congruence].
  rewrite Ho.
  replace (Nat.eqb (length owners) 0) with false by (symmetry; apply Nat.eqb_neq; lia).
  replace (Nat.eqb (length owners) 1) with false by (symmetry; apply Nat.eqb_neq; lia).
  cbn [andb fst].
  fold (valid_review (pr_author ctx)).
  set (L := latestReviews (filter (valid_review (pr_author ctx)) (env_reviews env))).
  assert (HL : forall u, Some u <> pr_author ctx ->
            map_get L u = latest_meaningful_state (env_reviews env) u).
  { intros u Hu. unfold L. rewrite latestReviews_get.
    unfold latest_meaningful_state. fold (spec_step u).
    apply spec_fold_filter. intros r Hr. exact (valid_review_false _ r u Hu Hr). }
  assert (Hnd : NoDup (map fst L)) by (apply latest_nodup; constructor).
  rewrite existsb_exists. split.
  - intros [[u st] [Hin Hf]]. cbn in Hf.
    apply andb_true_iff in Hf as [Hst Hown].
    apply String.eqb_eq in Hst. subst st.
    pose proof (In_map_get L u _ Hnd Hin) as Hg.
    assert (Hu : Some u <> pr_author ctx).
    { unfold L in Hg. rewrite latestReviews_get in Hg.
      destruct (spec_fold_from_review _ None u _ Hg) as [Hc | [r [Hr Hl]]];
        [discriminate |].
      apply filter_In in Hr as [_ Hv]. subst u. exact (valid_review_true _ r Hv). }
    exists u. split; [exact Hu |]. split; [apply set_has_In; exact Hown |].
    rewrite <- (HL u Hu). exact Hg.
  - intros [u [Hu [Hin Happ]]]. exists (u, "APPROVED"). split.
    + apply map_get_In. rewrite (HL u Hu). exact Happ.
    + cbn. apply set_has_In in Hin. rewrite Hin. reflexivity.
Qed.

Lemma C6_approval_iff_latest_owner_approved_witness :
  let ctx := pr_ctx ["coverage-override"] "alice" in
  let env := report [] "* @alice @bob"
               [{| review_login := "bob"; review_state := "APPROVED" |};
                {| review_login := "bob"; review_state := "COMMENTED" |}] in
  fst (checkCodeownersApproval ctx env) = true <->
  exists u, Some u <> pr_author ctx /\ In u ["alice"; "bob"] /\
            latest_meaningful_state (env_reviews env) u = Some "APPROVED".
Proof.
  intros ctx env.
  apply C6_approval_iff_latest_owner_approved; [discriminate | reflexivity | cbn; lia].
Defined.

End GateProofs.

(** * Facts about the matcher *)

Module RegexFacts.
Import Regex.

Lemma mt_seq_eq r1 r2 pv s cs k :
  mt (RSeq r1 r2) pv s cs k = mt r1 pv s cs (fun pv' s' cs' => mt r2 pv' s' cs' k).
Proof. reflexivity. Qed.

Lemma first_some_none {A : Type} (f : nat -> option A) l :
  (forall j, In j l -> f j = None) -> first_some f l = None.
Proof.
  induction l as [| j l IH]; intros H; cbn; [reflexivity |].
  rewrite (H j (or_introl eq_refl)). apply IH. intros j' Hj'. apply H. right. exact Hj'.
Qed.

Lemma counts_greedy_head n mn :
  mn <= n -> exists l, counts n mn true = n :: l.
Proof.
  intros Hle. unfold counts.
  replace (n + 1 - mn) with (S (n - mn)) by lia.
  rewrite seq_S, rev_app_distr. cbn.
  replace (mn + (n - mn)) with n by lia. eexists. reflexivity.
Qed.

Lemma In_counts j n mn g : In j (counts n mn g) -> mn <= j <= n.
Proof.
  unfold counts. destruct g; [rewrite <- in_rev |]; rewrite in_seq; lia.
Qed.

(** A greedy repetition succeeds when its longest run does. *)
Lemma rep_ok p mn pv s cs k :
  mn <= run p s ->
  k (prev_after pv s (run p s)) (drop (run p s) s) cs <> None ->
  mt (RRep p mn true) pv s cs k <> None.
Proof.
  intros Hle Hk. cbn [mt].
  destruct (counts_greedy_head (run p s) mn Hle) as [l ->]. cbn.
  destruct (k _ _ cs); [discriminate | contradiction].
Qed.

(** A repetition fails when every count it may try fails. *)
Lemma rep_none p mn g pv s cs k :
  (forall j, mn <= j <= run p s -> k (prev_after pv s j) (drop j s) cs = None) ->
  mt (RRep p mn g) pv s cs k = None.
Proof.
  intros H. cbn [mt]. apply first_some_none. intros j Hj.
  apply H. exact (In_counts _ _ _ _ Hj).
Qed.

Lemma char_eq c pv s cs k : mt (RChar c) pv (String c s) cs k = k (Some c) s cs.
Proof. cbn. rewrite Ascii.eqb_refl. reflexivity. Qed.

Lemma char_none c c' pv s cs k :
  Ascii.eqb c c' = false -> mt (RChar c) pv (String c' s) cs k = None.
Proof. intros H. cbn. rewrite H. reflexivity. Qed.

Lemma bol_eq pv s cs k : is_bol pv = true -> mt RBol pv s cs k = k pv s cs.
Proof. intros H. cbn. rewrite H. reflexivity. Qed.

Lemma bol_none pv s cs k : is_bol pv = false -> mt RBol pv s cs k = None.
Proof. intros H. cbn. rewrite H. reflexivity. Qed.

Lemma neg_eq r pv s cs k :
  mt r pv s cs done = None -> mt (RNegLook r) pv s cs k = k pv s cs.
Proof. intros H. cbn [mt]. rewrite H. reflexivity. Qed.

Lemma neg_none r pv s cs k :
  mt r pv s cs done <> None -> mt (RNegLook r) pv s cs k = None.
Proof. intros H. cbn [mt]. destruct (mt r pv s cs done); [reflexivity | congruence]. Qed.

(** A literal fails on an input it is not a prefix of. *)
Lemma lit_none w pv s cs k :
  String.prefix w s = false -> mt (lit w) pv s cs k = None.
Proof.
  revert pv s. induction w as [| c w IH]; intros pv s Hp.
  - destruct s; discriminate.
  - destruct s as [| d s]; [destruct w; reflexivity |].
    cbn [String.prefix] in Hp.
    destruct (ascii_dec c d) as [<- | Hne].
    + destruct w as [| c' w']; [destruct s; discriminate |].
      change (lit (String c (String c' w'))) with (RSeq (RChar c) (lit (String c' w'))).
      rewrite mt_seq_eq, char_eq. apply IH. exact Hp.
    + assert (Hb : Ascii.eqb c d = false) by (apply Ascii.eqb_neq; exact Hne).
      destruct w; [| change (lit (String c (String a w))) with
                             (RSeq (RChar c) (lit (String a w))); rewrite mt_seq_eq];
        apply char_none; exact Hb.
Qed.

(** A literal succeeds on an input it is a prefix of. *)
Lemma lit_ok w t pv cs k :
  w <> EmptyString -> (forall pv', k pv' t cs <> None) -> mt (lit w) pv (w ++ t) cs k <> None.
Proof.
  revert pv. induction w as [| c w IH]; intros pv Hw Hk; [congruence |].
  destruct w as [| c' w'].
  - cbn [lit append]. rewrite char_eq. apply Hk.
  - change (lit (String c (String c' w'))) with (RSeq (RChar c) (lit (String c' w'))).
    cbn [append]. rewrite mt_seq_eq, char_eq. apply IH; [discriminate | exact Hk].
Qed.

Lemma all_chars_app p a b : all_chars p (a ++ b) = all_chars p a && all_chars p b.
Proof. induction a as [| c a IH]; cbn; [reflexivity | rewrite IH, andb_assoc; reflexivity]. Qed.

Lemma run_app p a b : all_chars p a = true -> run p (a ++ b) = String.length a + run p b.
Proof.
  induction a as [| c a IH]; cbn; [reflexivity |].
  intros H. apply andb_true_iff in H as [Hc Ha]. rewrite Hc, (IH Ha). reflexivity.
Qed.

Lemma run_stop p b : stops p b = true -> run p b = 0.
Proof.
  destruct b as [| c b]; cbn; [reflexivity |].
  destruct (p c); [discriminate | reflexivity].
Qed.

Lemma drop_app a b : drop (String.length a) (a ++ b) = b.
Proof. induction a as [| c a IH]; cbn; [reflexivity | exact IH]. Qed.

(** Inside a run of [p], the input goes on with a character of [p]. *)
Lemma drop_inside p a b j :
  all_chars p a = true -> j < String.length a ->
  exists c t, drop j (a ++ b) = String c t /\ p c = true.
Proof.
  revert j. induction a as [| c a IH]; intros j Ha Hj; cbn in Hj; [lia |].
  cbn in Ha. apply andb_true_iff in Ha as [Hc Ha].
  destruct j as [| j]; cbn.
  - exists c, (a ++ b). split; [reflexivity | exact Hc].
  - apply IH; [exact Ha | lia].
Qed.

(** A greedy repetition over a whole run [a] of [p]. *)
Lemma rep_app_ok p mn pv a b cs k :
  all_chars p a = true -> mn <= String.length a -> stops p b = true ->
  (forall pv', k pv' b cs <> None) ->
  mt (RRep p mn true) pv (a ++ b) cs k <> None.
Proof.
  intros Ha Hmn Hb Hk.
  assert (Hrun : run p (a ++ b) = String.length a) by (rewrite run_app, run_stop; [lia | |]; assumption).
  apply rep_ok; rewrite Hrun; [exact Hmn |]. rewrite drop_app. apply Hk.
Qed.

Lemma search_app r pv pre s :
  mt r (last_after pv pre) s [] done <> None -> search r pv (pre ++ s) <> None.
Proof.
  revert pv. induction pre as [| c pre IH]; intros pv H; cbn [append last_after] in *.
  - destruct s; cbn [search]; destruct (mt r pv _ [] done); congruence.
  - cbn [search]. destruct (mt r pv (String c (pre ++ s)) [] done); [discriminate |].
    apply IH. exact H.
Qed.

(** An expression anchored with [^] never matches inside a text without
    line terminators. *)
Lemma search_bol_none r pv s :
  is_bol pv = false -> all_chars is_dot s = true -> search (RSeq RBol r) pv s = None.
Proof.
  revert pv. induction s as [| c s IH]; intros pv Hpv Hs; cbn [search];
    rewrite mt_seq_eq, bol_none by exact Hpv; [reflexivity |].
  cbn in Hs. apply andb_true_iff in Hs as [Hc Hs].
  apply IH; [| exact Hs]. cbn. unfold is_dot in Hc. destruct (is_lt c); [discriminate | reflexivity].
Qed.

End RegexFacts.

(** * The additions test of the plan classifier *)

Module AdditionProofs.
Import Regex RegexFacts Plan Spec.

Lemma word_not_space c : is_word c = true -> is_space c = false.
Proof. destruct c as [[] [] [] [] [] [] [] []]; vm_compute; congruence. Qed.

Lemma not_space_dot c : is_space c = false -> is_dot c = true.
Proof. destruct c as [[] [] [] [] [] [] [] []]; vm_compute; congruence. Qed.

Lemma space_not_plus c : is_space c = true -> Ascii.eqb "+" c = false.
Proof. destruct c as [[] [] [] [] [] [] [] []]; vm_compute; congruence. Qed.

Lemma word_not_eq c : is_word c = true -> Ascii.eqb "=" c = false.
Proof. destruct c as [[] [] [] [] [] [] [] []]; vm_compute; congruence. Qed.

Lemma word_not_space_all s : all_chars is_word s = true -> all_chars is_dot s = true.
Proof.
  induction s as [| c s IH]; cbn; [reflexivity |].
  intros H. apply andb_true_iff in H as [Hc Hs].
  rewrite (not_space_dot c (word_not_space c Hc)), (IH Hs). reflexivity.
Qed.

Lemma stops_word_space name t :
  name <> EmptyString -> all_chars is_word name = true -> stops is_space (name ++ t) = true.
Proof.
  destruct name as [| c n]; [congruence |]. cbn. intros _ H.
  apply andb_true_iff in H as [Hc _]. rewrite (word_not_space c Hc). reflexivity.
Qed.

Lemma hasRealAdditions_test plan :
  hasRealAdditions (shouldCollapsePlan plan) = test additionPattern plan.
Proof. reflexivity. Qed.

Lemma test_search r s : test r s = true <-> search r None s <> None.
Proof. unfold test. destruct (search r None s); split; congruence. Qed.

(** One addition line [<indent>+ <name> = <value>] matches at its start. *)
Lemma addition_line_matches pv ind name value post :
  is_bol pv = true ->
  ind <> EmptyString -> all_chars is_space ind = true ->
  name <> EmptyString -> all_chars is_word name = true ->
  value <> EmptyString -> stops is_space value = true ->
  String.prefix "(known after apply)" (value ++ post) = false ->
  mt additionPattern pv (ind ++ "+ " ++ name ++ " = " ++ value ++ post) [] done <> None.
Proof.
  intros Hbol Hind Hsp Hname Hw Hv Hvs Hk.
  unfold additionPattern. cbn [seqs].
  rewrite mt_seq_eq, bol_eq by exact Hbol.
  rewrite mt_seq_eq. apply rep_app_ok;
    [exact Hsp | destruct ind; [congruence | cbn; lia] | reflexivity |].
  intros pv1. cbv beta. cbn [append].
  rewrite mt_seq_eq, char_eq. cbv beta.
  rewrite mt_seq_eq. apply (rep_app_ok is_space 1 _ " ");
    [reflexivity | cbn; lia | apply stops_word_space; assumption |].
  intros pv2. cbv beta.
  rewrite mt_seq_eq. apply (rep_app_ok is_word 1 _ name);
    [exact Hw | destruct name; [congruence | cbn; lia] | reflexivity |].
  intros pv3. cbv beta.
  rewrite mt_seq_eq. apply (rep_app_ok is_space 0 _ " "); [reflexivity | lia | reflexivity |].
  intros pv4. cbv beta.
  rewrite mt_seq_eq, char_eq. cbv beta.
  rewrite mt_seq_eq. apply (rep_app_ok is_space 0 _ " ");
    [reflexivity | lia | destruct value; [congruence | exact Hvs] |].
  intros pv5. cbv beta.
  rewrite mt_seq_eq, neg_eq.
  - destruct value as [| c v]; [congruence |].
    apply rep_ok; cbn [run append]; cbn [stops] in Hvs;
      rewrite (not_space_dot c) by (destruct (is_space c); [discriminate | reflexivity]);
      [lia | discriminate].
  - rewrite mt_seq_eq. apply rep_none. intros j Hj.
    assert (Hr : run is_space (value ++ post) = 0).
    { destruct value as [| c v]; [congruence |]. apply run_stop. exact Hvs. }
    rewrite Hr in Hj. replace j with 0 by lia. cbv beta.
    apply lit_none. exact Hk.
Qed.

(** The placeholder line does not match at its start. *)
Lemma placeholder_line_start ind name :
  ind <> EmptyString -> all_chars is_space ind = true ->
  name <> EmptyString -> all_chars is_word name = true ->
  mt additionPattern None (placeholder_line ind name) [] done = None.
Proof.
  intros Hind Hsp Hname Hw. unfold additionPattern, placeholder_line. cbn [seqs].
  rewrite mt_seq_eq, bol_eq by reflexivity.
  rewrite mt_seq_eq. apply rep_none. intros j Hj.
  rewrite run_app, run_stop in Hj by (exact Hsp || reflexivity).
  destruct (Nat.lt_ge_cases j (String.length ind)) as [Hlt | Hge].
  - destruct (drop_inside is_space ind ("+ " ++ name ++ " = (known after apply)") j Hsp Hlt)
      as (c & t & Hd & Hc).
    rewrite Hd. rewrite mt_seq_eq. apply char_none. exact (space_not_plus c Hc).
  - replace j with (String.length ind) by lia. rewrite drop_app.
    cbv beta. cbn [append].
    rewrite mt_seq_eq, char_eq. cbv beta.
    rewrite mt_seq_eq. apply rep_none. intros j2 Hj2.
    change (String " " (name ++ " = (known after apply)"))
      with (" " ++ (name ++ " = (known after apply)")) in *.
    rewrite run_app, run_stop in Hj2 by
      (reflexivity || (apply stops_word_space; assumption)).
    cbn [String.length] in Hj2. replace j2 with 1 by lia.
    change 1 with (String.length " "). rewrite drop_app. cbv beta.
    rewrite mt_seq_eq. apply rep_none. intros j3 Hj3.
    rewrite run_app, run_stop in Hj3 by (exact Hw || reflexivity).
    destruct (Nat.lt_ge_cases j3 (String.length name)) as [Hlt | Hge3].
    + destruct (drop_inside is_word name " = (known after apply)" j3 Hw Hlt)
        as (c & t & Hd & Hc).
      rewrite Hd. cbv beta. rewrite mt_seq_eq. apply rep_none. intros j4 Hj4.
      assert (Hr : run is_space (String c t) = 0).
      { apply run_stop. cbn. rewrite (word_not_space c Hc). reflexivity. }
      rewrite Hr in Hj4. replace j4 with 0 by lia. cbv beta. cbn [drop].
      rewrite mt_seq_eq. apply char_none. exact (word_not_eq c Hc).
    + replace j3 with (String.length name) by lia. rewrite drop_app. cbv beta.
      generalize (prev_after (prev_after (prev_after None
        (ind ++ "+ " ++ name ++ " = (known after apply)") (String.length ind))
        (" " ++ name ++ " = (known after apply)") 1)
        (name ++ " = (known after apply)") (String.length name)).
      intros pv. vm_compute. reflexivity.
Qed.

End AdditionProofs.

(** * Properties of the plan classifier and of the CODEOWNERS parser *)

Module PlanProofs.
Import Regex RegexFacts Plan Coverage Spec GateProofs.

Lemma prefix_app (w t : string) : String.prefix w (w ++ t) = true.
Proof.
  induction w as [| c w IH]; cbn; [destruct t; reflexivity |].
  destruct (ascii_dec c c); [exact IH | congruence].
Qed.

Lemma includes_prefix (s pat : string) :
  String.prefix pat s = true -> includes s pat = true.
Proof. intros H. destruct s; cbn [includes]; rewrite H; reflexivity. Qed.

Lemma includes_app (pre pat post : string) : includes (pre ++ pat ++ post) pat = true.
Proof.
  induction pre as [| c pre IH].
  - cbn [append]. apply includes_prefix, prefix_app.
  - cbn [append includes]. rewrite IH. apply orb_true_r.
Qed.

(** The last step of [shouldCollapsePlan], on its inputs. *)
Lemma collapse_decide (hou : option bool) (A D R : bool) (L : list string) :
  match match hou with
        | Some true =>
            Some (negb A && negb D && (0 <? length L) && forallb (set_has codeAttrs) L)
        | other => other
        end with
  | Some true => negb R
  | _ => false
  end = true <->
  hou = Some true /\ A = false /\ D = false /\ L <> [] /\
  Forall (fun a => In a codeAttrs) L /\ R = false.
Proof.
  destruct hou as [[]|]; [| split; [discriminate | intros [H _]; discriminate]
                         | split; [discriminate | intros [H _]; discriminate]].
  assert (HF : forallb (set_has codeAttrs) L = true <->
               Forall (fun a => In a codeAttrs) L).
  { rewrite forallb_forall, Forall_forall.
    split; intros H x Hx; apply set_has_In; exact (H x Hx). }
  assert (HL : (0 <? length L) = true <-> L <> []).
  { destruct L; cbn; split; congruence. }
  destruct A, D, R, (0 <? length L), (forallb (set_has codeAttrs) L);
    cbn; intuition congruence.
Qed.

(** C4: [shouldCollapse] holds exactly when the summary says only updates,
    there is no real addition or deletion, some attribute changed, every
    changed attribute is [content_sha256] or [content], and no
    resource-change marker occurs; so a plan containing "will be created"
    never collapses. *)
Theorem C4_collapse_iff :
  (forall plan,
     let r := shouldCollapsePlan plan in
     shouldCollapse r = true <->
     hasOnlyUpdates r = Some true /\ hasRealAdditions r = false /\
     hasRealDeletions r = false /\ changedAttrs r <> [] /\
     Forall (fun a => In a ["content_sha256"; "content"]) (changedAttrs r) /\
     hasResourceChanges r = false) /\
  (forall pre post,
     shouldCollapse (shouldCollapsePlan (pre ++ "will be created" ++ post)) = false).
Proof.
  split.
  - intros plan r.
    exact (collapse_decide (hasOnlyUpdates r) (hasRealAdditions r)
             (hasRealDeletions r) (hasResourceChanges r) (changedAttrs r)).
  - intros pre post.
    set (plan := pre ++ "will be created" ++ post).
    destruct (shouldCollapse (shouldCollapsePlan plan)) eqn:E; [| reflexivity].
    apply (collapse_decide (hasOnlyUpdates (shouldCollapsePlan plan))
             (hasRealAdditions (shouldCollapsePlan plan))
             (hasRealDeletions (shouldCollapsePlan plan))
             (hasResourceChanges (shouldCollapsePlan plan))
             (changedAttrs (shouldCollapsePlan plan))) in E.
    destruct E as (_ & _ & _ & _ & _ & HR).
    cbn [hasResourceChanges shouldCollapsePlan] in HR.
    unfold plan in HR. rewrite includes_app in HR. discriminate.
Qed.

(** C9 (as written, refuted): for the empty plan [hasOnlyUpdates] is the
    [null] of [summaryMatch && ...], not the boolean [false]. *)
Lemma C9_counterexample :
  hasOnlyUpdates (shouldCollapsePlan "") = None /\
  hasOnlyUpdates (shouldCollapsePlan "") <> Some false.
Proof. vm_compute. split; [reflexivity | discriminate]. Qed.

(** C9 (amended): without a summary line match (as for the empty plan)
    [hasOnlyUpdates] is [null] (falsy, not a boolean) and [shouldCollapse]
    is [false]. *)
Theorem C9_no_summary_never_collapses plan :
  search summaryPattern None plan = None ->
  hasOnlyUpdates (shouldCollapsePlan plan) = None /\
  shouldCollapse (shouldCollapsePlan plan) = false.
Proof.
  intros H. unfold shouldCollapsePlan. cbn [hasOnlyUpdates shouldCollapse].
  rewrite H. split; reflexivity.
Qed.

Lemma C9_no_summary_never_collapses_witness :
  hasOnlyUpdates (shouldCollapsePlan "") = None /\
  shouldCollapse (shouldCollapsePlan "") = false.
Proof. apply C9_no_summary_never_collapses. vm_compute. reflexivity. Defined.

(** C2 (code bug): [/@([\w.\-]+)/g] stops at the [/] of a team entry but
    still adds the organisation part: [@org/team] contributes ["org"].  With
    [* @alice @org/team] the owner set has two members, so PR author alice
    loses the sole-codeowner exception. *)
Theorem C2_team_entry_adds_org :
  parseCodeowners (Some "* @org/team") = Some ["org"] /\
  parseCodeowners (Some "* @alice @org/team") = Some ["alice"; "org"] /\
  fst (checkCodeownersApproval (pr_ctx ["coverage-override"] "alice")
         (report [] "* @alice @org/team" [])) = false.
Proof. vm_compute. repeat split. Qed.

Lemma search_cons_none r c s :
  mt r None (String c s) [] done = None -> search r (Some c) s = None ->
  search r None (String c s) = None.
Proof. intros H1 H2. cbn [search]. rewrite H1. exact H2. Qed.

(** C8 (as written, refuted): the multi-line block opener [+ tags = {]
    counts as a real addition; only deletions exclude block openers. *)
Lemma C8_counterexample :
  hasRealAdditions (shouldCollapsePlan "  + tags = {") = true.
Proof. vm_compute. reflexivity. Qed.

(** C8 (amended): a line [<indent>+ <name> = <value>] (at the start of the
    text or after a line break) whose value starts with a non-white-space
    character and not with the placeholder [(known after apply)] makes
    [hasRealAdditions] true, block openers included; a plan that is one
    line [<indent>+ <name> = (known after apply)] gives false. *)
Theorem C8_real_additions :
  (forall pre ind name value post,
     is_bol (last_after None pre) = true ->
     ind <> EmptyString -> all_chars is_space ind = true ->
     name <> EmptyString -> all_chars is_word name = true ->
     value <> EmptyString -> stops is_space value = true ->
     String.prefix "(known after apply)" (value ++ post) = false ->
     hasRealAdditions
       (shouldCollapsePlan (pre ++ ind ++ "+ " ++ name ++ " = " ++ value ++ post)) = true) /\
  (forall ind name,
     ind <> EmptyString -> all_chars is_space ind = true -> all_chars is_dot ind = true ->
     name <> EmptyString -> all_chars is_word name = true ->
     hasRealAdditions (shouldCollapsePlan (placeholder_line ind name)) = false).
Proof.
  split.
  - intros pre ind name value post Hbol Hind Hsp Hname Hw Hv Hvs Hk.
    rewrite AdditionProofs.hasRealAdditions_test, AdditionProofs.test_search.
    apply search_app. apply AdditionProofs.addition_line_matches; assumption.
  - intros ind name Hind Hsp Hdot Hname Hw.
    rewrite AdditionProofs.hasRealAdditions_test. unfold test.
    destruct ind as [| c ind']; [congruence |].
    unfold placeholder_line. cbn [append].
    rewrite search_cons_none; [reflexivity | |].
    + exact (AdditionProofs.placeholder_line_start (String c ind') name Hind Hsp Hname Hw).
    + cbn [all_chars] in Hdot. apply andb_true_iff in Hdot as [Hc Hdot].
      unfold additionPattern. cbn [seqs]. apply search_bol_none.
      * cbn. unfold is_dot in Hc. destruct (is_lt c); [discriminate | reflexivity].
      * rewrite all_chars_app, Hdot. simpl.
        rewrite all_chars_app, (AdditionProofs.word_not_space_all name Hw).
        reflexivity.
Qed.

Lemma C8_real_additions_witness :
  hasRealAdditions (shouldCollapsePlan ("" ++ "  " ++ "+ " ++ "tags" ++ " = " ++ "{" ++ "")) = true /\
  hasRealAdditions (shouldCollapsePlan (placeholder_line "  " "status")) = false.
Proof.
  split.
  - apply (proj1 C8_real_additions); try reflexivity; discriminate.
  - apply (proj2 C8_real_additions); try reflexivity; discriminate.
Defined.

End PlanProofs.

(** * Further properties of the coverage gate and of the approval check *)

Module GateExtras.
Import Coverage Spec Views.

(** A report that is unreadable, not an object, or lacks a numeric
    [total_percent_covered] or [total_num_lines] fails the gate, with
    coverage [NaN], no telemetry and no call to GitHub. *)
Theorem gate_invalid_report_fails fmt threshold ctx env :
  (forall data p n, env_report env = Some data ->
     get_prop data "total_percent_covered" = inr (Some (JNum p)) ->
     get_prop data "total_num_lines" = inr (Some (JNum n)) -> False) ->
  analyzeCoverageResults fmt threshold ctx env =
  ({| shouldFail := Some true; coveragePercent := Some NaN;
      reason := Some "Coverage report missing or invalid JSON";
      overrideApplied := None; telemetryEvents := [] |}, []).
Proof.
  intros H. unfold analyzeCoverageResults, getCoverageData.
  destruct (env_report env) as [data|] eqn:Er; [|reflexivity].
  destruct (get_prop data "total_percent_covered") as [?|[[]|]] eqn:E1;
    try reflexivity;
  destruct (get_prop data "total_num_lines") as [?|[[]|]] eqn:E2;
    try reflexivity.
  exfalso. eapply H; eauto.
Qed.

Lemma gate_invalid_report_fails_witness :
  let env := report [("total_percent_covered", JStr "90");
                     ("total_num_lines", JNum 10)] "* @alice" [] in
  analyzeCoverageResults no_fmt 80 (pr_ctx ["coverage-override"] "bob") env =
  ({| shouldFail := Some true; coveragePercent := Some NaN;
      reason := Some "Coverage report missing or invalid JSON";
      overrideApplied := None; telemetryEvents := [] |}, []).
Proof.
  intros env. apply gate_invalid_report_fails.
  intros data p n Hr H1 _. injection Hr as <-. vm_compute in H1. discriminate.
Defined.

(** Without the [coverage-override] label, a valid, non-crashed report
    with executable lines fails exactly when the coverage is below the
    threshold; no override is applied, no telemetry is emitted and
    neither the reviews nor CODEOWNERS are read. *)
Theorem gate_without_override_label fmt threshold ctx env p n :
  getCoverageData (env_report env) =
    {| percent := p; totalLines := n; parseError := false; crashFallback := false |} ->
  ~ (n == 0)%Q ->
  ~ In "coverage-override" (labels ctx) ->
  let (d, effs) := analyzeCoverageResults fmt threshold ctx env in
  shouldFail d = Some (negb (Qle_bool threshold p)) /\
  coveragePercent d = Some (Num p) /\ overrideApplied d = None /\
  telemetryEvents d = [] /\ effs = [].
Proof.
  intros Hd Hz Hl. unfold analyzeCoverageResults. rewrite Hd.
  cbn [parseError crashFallback totalLines percent].
  destruct (Qeq_bool n 0) eqn:E; [apply Qeq_bool_iff in E; contradiction |].
  assert (Hlab : existsb (String.eqb "coverage-override") (labels ctx) = false).
  { destruct (existsb _ _) eqn:Ex; [| reflexivity].
    apply existsb_exists in Ex as [x [Hx Heq]]. apply String.eqb_eq in Heq.
    subst x. contradiction. }
  rewrite Hlab.
  destruct (Qle_bool threshold p); cbn; repeat split.
Qed.

Lemma gate_without_override_label_witness :
  let env := report [("total_percent_covered", JNum 79);
                     ("total_num_lines", JNum 10)] "* @alice" [] in
  let (d, effs) := analyzeCoverageResults no_fmt 80 (pr_ctx [] "bob") env in
  shouldFail d = Some (negb (Qle_bool 80 79)) /\
  coveragePercent d = Some (Num 79) /\ overrideApplied d = None /\
  telemetryEvents d = [] /\ effs = [].
Proof.
  intros env. apply (gate_without_override_label no_fmt 80 (pr_ctx [] "bob") env 79 10).
  - reflexivity.
  - vm_compute. discriminate.
  - intros [].
Defined.

(** Lowering the threshold never turns a passing gate into a failing one
    (labels, reviews and the report being the same). *)
Theorem gate_pass_monotone_threshold fmt t t' ctx env :
  (t' <= t)%Q ->
  shouldFail (fst (analyzeCoverageResults fmt t ctx env)) = Some false ->
  shouldFail (fst (analyzeCoverageResults fmt t' ctx env)) = Some false.
Proof.
  intros Ht. unfold analyzeCoverageResults.
  destruct (getCoverageData (env_report env)) as [p n [] []];
    cbn [parseError crashFallback totalLines percent]; try (intros; assumption).
  destruct (Qeq_bool n 0); [intros; assumption |].
  destruct (Qle_bool t p) eqn:E1.
  - intros _. apply Qle_bool_iff in E1.
    replace (Qle_bool t' p) with true
      by (symmetry; apply Qle_bool_iff; apply (Qle_trans _ t); assumption).
    reflexivity.
  - destruct (Qle_bool t' p); [reflexivity |].
    destruct (existsb (String.eqb "coverage-override") (labels ctx));
      [| cbn; discriminate].
    destruct (checkCodeownersApproval ctx env) as [[] effs]; cbn;
      [reflexivity | discriminate].
Qed.

Lemma gate_pass_monotone_threshold_witness :
  let ctx := pr_ctx ["coverage-override"] "alice-bot" in
  let env := report [("total_percent_covered", JNum 70); ("total_num_lines", JNum 10)]
               "* @alice" [] in
  shouldFail (fst (analyzeCoverageResults no_fmt 80 ctx env)) = Some false /\
  shouldFail (fst (analyzeCoverageResults no_fmt 75 ctx env)) = Some false.
Proof.
  intros ctx env.
  assert (H : shouldFail (fst (analyzeCoverageResults no_fmt 80 ctx env)) = Some false)
    by (vm_compute; reflexivity).
  split; [exact H |].
  apply (gate_pass_monotone_threshold no_fmt 80 75 ctx env); [vm_compute; discriminate | exact H].
Defined.

(** GitHub is consulted (reviews and CODEOWNERS) only on the two override
    branches, and exactly those branches emit one telemetry event.  The
    event records the reported coverage (below the threshold) and the
    threshold; its [has_approval] is the result of the approval check,
    decides [shouldFail] and [overrideApplied], and names the event. *)
Theorem gate_events_and_calls fmt threshold ctx env :
  let (d, effs) := analyzeCoverageResults fmt threshold ctx env in
  match telemetryEvents d with
  | [] => overrideApplied d = None /\ effs = []
  | [e] =>
      In "coverage-override" (labels ctx) /\
      effs = snd (checkCodeownersApproval ctx env) /\
      coveragePercent d = Some (Num (actual_coverage e)) /\
      (actual_coverage e < threshold)%Q /\ ev_threshold e = threshold /\
      has_approval e = fst (checkCodeownersApproval ctx env) /\
      shouldFail d = Some (negb (has_approval e)) /\
      (overrideApplied d = Some true <-> has_approval e = true) /\
      event e = (if has_approval e then "coverage_override_applied"
                 else "coverage_override_without_approval")
  | _ => False
  end.
Proof.
  unfold analyzeCoverageResults.
  destruct (getCoverageData (env_report env)) as [p n [] []];
    cbn [parseError crashFallback totalLines percent telemetryEvents overrideApplied];
    try (split; reflexivity).
  destruct (Qeq_bool n 0); [cbn; split; reflexivity |].
  destruct (Qle_bool threshold p) eqn:Ele; [cbn; split; reflexivity |].
  assert (Hlt : (p < threshold)%Q).
  { apply Qnot_le_lt. intros H. apply Qle_bool_iff in H. congruence. }
  destruct (existsb (String.eqb "coverage-override") (labels ctx)) eqn:Ex;
    [| cbn; split; reflexivity].
  assert (Hin : In "coverage-override" (labels ctx)).
  { apply existsb_exists in Ex as [x [Hx Heq]]. apply String.eqb_eq in Heq.
    subst x. exact Hx. }
  destruct (checkCodeownersApproval ctx env) as [[] effs]; cbn;
    repeat split; auto; discriminate.
Qed.

(** Reviews of the approval check *)

Lemma filter_none {A} (f : A -> bool) l :
  Forall (fun x => f x = false) l -> filter f l = [].
Proof. induction 1 as [| x l Hx _ IH]; cbn; [reflexivity | now rewrite Hx]. Qed.

Lemma latestReviews_skip rs1 extra rs2 :
  Forall (fun r => existsb (String.eqb (review_state r)) meaningfulStates = false) extra ->
  latestReviews (app rs1 (app extra rs2)) = latestReviews (app rs1 rs2).
Proof.
  intros Hx. unfold latestReviews. rewrite !fold_left_app. f_equal.
  generalize (fold_left
    (fun m review =>
       if existsb (String.eqb (review_state review)) meaningfulStates
       then map_set m (review_login review) (review_state review) else m) rs1 []).
  induction Hx as [| r l Hr _ IH]; intros m; cbn [fold_left]; [reflexivity |].
  rewrite Hr. apply IH.
Qed.

(** An unreadable CODEOWNERS file, or one naming no owner, never grants
    approval, whatever the reviews. *)
Theorem approval_fail_closed ctx env :
  (forall owners, parseCodeowners (env_codeowners env) = Some owners -> owners = []) ->
  fst (checkCodeownersApproval ctx env) = false.
Proof.
  intros H. unfold checkCodeownersApproval.
  destruct (truthy_number (pull_number ctx)) as [n|]; [| reflexivity].
  destruct (parseCodeowners (env_codeowners env)) as [owners|] eqn:E; [| reflexivity].
  rewrite (H owners eq_refl). reflexivity.
Qed.

Lemma approval_fail_closed_witness :
  let env := report [] (lines ["# owners"; "  # @alice @bob"; ""])
               [{| review_login := "bob"; review_state := "APPROVED" |}] in
  fst (checkCodeownersApproval (pr_ctx ["coverage-override"] "alice") env) = false.
Proof.
  intros env. apply approval_fail_closed.
  intros owners H. vm_compute in H. injection H as <-. reflexivity.
Defined.

(** Reviews written by the pull request's author are never counted,
    wherever they appear in the review list. *)
Theorem approval_ignores_author_reviews ctx env a rs1 extra rs2 :
  pr_author ctx = Some a ->
  Forall (fun r => review_login r = a) extra ->
  fst (checkCodeownersApproval ctx (with_reviews env (app rs1 (app extra rs2)))) =
  fst (checkCodeownersApproval ctx (with_reviews env (app rs1 rs2))).
Proof.
  intros Ha Hx. unfold checkCodeownersApproval, with_reviews.
  cbn [env_reviews env_codeowners]. rewrite Ha.
  rewrite !filter_app, (filter_none _ extra); [reflexivity |].
  refine (Forall_impl _ _ Hx). intros r Hr. cbn. rewrite Hr, String.eqb_refl.
  reflexivity.
Qed.

Lemma approval_ignores_author_reviews_witness :
  let env := report [] "* @alice @bob" [] in
  fst (checkCodeownersApproval (pr_ctx [] "alice")
         (with_reviews env (app [] (app [{| review_login := "alice"; review_state := "APPROVED" |}] [])))) =
  fst (checkCodeownersApproval (pr_ctx [] "alice") (with_reviews env (app [] []))).
Proof.
  intros env. apply (approval_ignores_author_reviews _ _ "alice"); [reflexivity |].
  repeat constructor.
Defined.

(** Reviews whose state is not APPROVED, CHANGES_REQUESTED or DISMISSED
    (COMMENTED, PENDING, ...) change nothing, wherever they appear: in
    particular a later comment does not revoke an approval. *)
Theorem approval_ignores_other_states ctx env rs1 extra rs2 :
  Forall (fun r => ~ In (review_state r) meaningfulStates) extra ->
  fst (checkCodeownersApproval ctx (with_reviews env (app rs1 (app extra rs2)))) =
  fst (checkCodeownersApproval ctx (with_reviews env (app rs1 rs2))).
Proof.
  intros Hx. unfold checkCodeownersApproval, with_reviews.
  cbn [env_reviews env_codeowners].
  rewrite !filter_app, latestReviews_skip; [reflexivity |].
  apply Forall_forall. intros r Hr. apply filter_In in Hr as [Hr _].
  rewrite Forall_forall in Hx. specialize (Hx r Hr).
  destruct (existsb _ _) eqn:E; [| reflexivity].
  apply existsb_exists in E as [x [Hin Heq]]. apply String.eqb_eq in Heq.
  subst x. contradiction.
Qed.

Lemma approval_ignores_other_states_witness :
  let env := report [] "* @alice @bob" [] in
  fst (checkCodeownersApproval (pr_ctx [] "alice")
         (with_reviews env (app [{| review_login := "bob"; review_state := "APPROVED" |}]
            (app [{| review_login := "bob"; review_state := "COMMENTED" |}] [])))) =
  fst (checkCodeownersApproval (pr_ctx [] "alice")
         (with_reviews env (app [{| review_login := "bob"; review_state := "APPROVED" |}] []))).
Proof.
  intros env. apply approval_ignores_other_states.
  repeat constructor. cbn. intuition discriminate.
Defined.

End GateExtras.

(** * Properties of parseCodeowners *)

Module CodeownersExtras.
Import Regex RegexFacts Plan Coverage Views GateProofs.

Lemma first_some_some {A : Type} (f : nat -> option A) l x :
  first_some f l = Some x -> exists j, In j l /\ f j = Some x.
Proof.
  induction l as [| j l IH]; cbn; [discriminate |].
  destruct (f j) eqn:E.
  - intros [= <-]. exists j. split; [left; reflexivity | exact E].
  - intros H. destruct (IH H) as [j' [Hj Hf]]. exists j'. split; [right|]; assumption.
Qed.

Lemma run_le p s : run p s <= String.length s.
Proof. induction s as [| c s IH]; cbn; [lia | destruct (p c); cbn; lia]. Qed.

Lemma drop_length j s : String.length (drop j s) = String.length s - j.
Proof.
  revert s. induction j as [| j IH]; intros [| c s]; cbn; try lia. apply IH.
Qed.

Lemma take_chars p j s : j <= run p s -> all_chars p (take j s) = true.
Proof.
  revert s. induction j as [| j IH]; intros [| c s]; cbn; try reflexivity; try lia.
  destruct (p c); cbn; [intros H; apply IH; lia | lia].
Qed.

Lemma take_nonempty j s : 1 <= j <= String.length s -> take j s <> EmptyString.
Proof. destruct j, s; cbn; [lia | lia | lia | discriminate]. Qed.

Lemma mt_owner pv s pv' s' cs :
  mt ownerPattern pv s [] done = Some (pv', s', cs) -> owner_capture cs.
Proof.
  destruct s as [| c s0]; [discriminate |].
  unfold ownerPattern, plus. cbn [mt].
  destruct (Ascii.eqb "@" c); [| discriminate].
  intros H. apply first_some_some in H as [j [Hj Hf]].
  apply In_counts in Hj. pose proof (run_le is_owner_char s0).
  unfold done in Hf. injection Hf as _ _ <-.
  rewrite drop_length. replace (String.length s0 - (String.length s0 - j)) with j by lia.
  exists (take j s0). split; [reflexivity |].
  split; [apply take_nonempty; lia | apply take_chars; lia].
Qed.

Lemma search_owner pv s pv' s' cs :
  search ownerPattern pv s = Some (pv', s', cs) -> owner_capture cs.
Proof.
  revert pv. induction s as [| c s IH]; intros pv; cbn [search].
  - destruct (mt ownerPattern pv "" [] done) as [[[? ?] ?]|] eqn:E;
      [intros [= <- <- <-]; exact (mt_owner _ _ _ _ _ E) | discriminate].
  - destruct (mt ownerPattern pv (String c s) [] done) as [[[? ?] ?]|] eqn:E;
      [intros [= <- <- <-]; exact (mt_owner _ _ _ _ _ E) | apply IH].
Qed.

Lemma all_matches_owner f pv s cs :
  In cs (all_matches f ownerPattern pv s) -> owner_capture cs.
Proof.
  revert pv s. induction f as [| f IH]; intros pv s; cbn; [intros [] |].
  destruct (search ownerPattern pv s) as [[[pv' s'] cs']|] eqn:E; [| intros []].
  intros [<- | Hin]; [exact (search_owner _ _ _ _ _ E) | exact (IH _ _ Hin)].
Qed.

Lemma set_add_good owners w :
  good_owners owners -> w <> EmptyString -> all_chars is_owner_char w = true ->
  good_owners (set_add owners w).
Proof.
  intros [Hnd Hf] Hw Hc. unfold set_add.
  destruct (set_has owners w) eqn:E; [split; assumption |].
  split.
  - apply NoDup_app; [exact Hnd | repeat constructor; intros [] |].
    intros a Ha [<- | []]. apply set_has_In in Ha. congruence.
  - apply Forall_app. split; [exact Hf | repeat constructor; assumption].
Qed.

Lemma parse_line_good owners line :
  good_owners owners -> good_owners (parse_line owners line).
Proof.
  intros Hg. unfold parse_line.
  destruct (String.prefix "#" line || blank line); [exact Hg |].
  unfold match_all.
  generalize (S (String.length (hd "" (split_on "#" line)))) as f.
  generalize (@None ascii) as pv. generalize (hd "" (split_on "#" line)) as s.
  intros s pv f.
  assert (Hall : forall cs, In cs (all_matches f ownerPattern pv s) -> owner_capture cs)
    by (intros cs; apply all_matches_owner).
  revert owners Hg Hall. generalize (all_matches f ownerPattern pv s) as ms.
  induction ms as [| cs ms IH]; intros owners Hg Hall; cbn [fold_left]; [exact Hg |].
  apply IH; [| intros cs' H; apply Hall; right; exact H].
  destruct (Hall cs (or_introl eq_refl)) as [w [-> [Hw Hc]]].
  exact (set_add_good _ _ Hg Hw Hc).
Qed.

(** The owners read from CODEOWNERS are distinct, non-empty logins made of
    [[A-Za-z0-9_.-]] only: no ['/'], ['@'], white space or ['#'] can get
    into a name. *)
Theorem parseCodeowners_owner_names file owners :
  parseCodeowners file = Some owners ->
  NoDup owners /\
  Forall (fun o => o <> EmptyString /\ all_chars is_owner_char o = true) owners.
Proof.
  destruct file as [content|]; cbn; [| discriminate].
  intros [= <-]. change (good_owners (fold_left parse_line (split_on nl content) [])).
  assert (H : good_owners []) by (split; constructor).
  revert H. generalize (@nil string) as acc.
  induction (split_on nl content) as [| line ls IH]; intros acc Hacc; cbn [fold_left];
    [exact Hacc |].
  apply IH. apply parse_line_good. exact Hacc.
Qed.

Lemma parseCodeowners_owner_names_witness :
  NoDup ["alice"; "org"; "b.o-b"] /\
  Forall (fun o => o <> EmptyString /\ all_chars is_owner_char o = true)
    ["alice"; "org"; "b.o-b"].
Proof.
  apply (parseCodeowners_owner_names
           (Some (lines ["* @alice @org/team"; "/docs/ @b.o-b @alice # @mallory"]))).
  vm_compute. reflexivity.
Defined.

(** Inline comments *)

Lemma includes_char_none c s :
  includes s (String c EmptyString) = false ->
  all_chars (fun x => negb (Ascii.eqb x c)) s = true.
Proof.
  induction s as [| d s IH]; cbn; [reflexivity |].
  destruct (ascii_dec c d) as [<- | Hne];
    [replace (String.prefix "" s) with true by (destruct s; reflexivity);
     discriminate |].
  intros H. rewrite IH by exact H.
  destruct (Ascii.eqb_spec d c); [congruence | reflexivity].
Qed.

Lemma split_on_app c l t :
  all_chars (fun x => negb (Ascii.eqb x c)) l = true ->
  split_on c (l ++ String c t) = l :: split_on c t.
Proof.
  induction l as [| d l IH]; cbn.
  - rewrite Ascii.eqb_refl. reflexivity.
  - destruct (Ascii.eqb_spec d c) as [-> | Hne]; [discriminate |]. cbn.
    intros H. rewrite IH by exact H.
    replace (Ascii.eqb c d) with false
      by (symmetry; apply Ascii.eqb_neq; congruence).
    reflexivity.
Qed.

Lemma split_on_none c l :
  all_chars (fun x => negb (Ascii.eqb x c)) l = true -> split_on c l = [l].
Proof.
  induction l as [| d l IH]; cbn; [reflexivity |].
  destruct (Ascii.eqb_spec d c) as [-> | Hne]; [discriminate |]. cbn.
  intros H. rewrite IH by exact H.
  replace (Ascii.eqb c d) with false by (symmetry; apply Ascii.eqb_neq; congruence).
  reflexivity.
Qed.

Lemma blank_app a b : blank (a ++ b) = blank a && blank b.
Proof. unfold blank. induction a as [| c a IH]; cbn; [reflexivity | rewrite IH; apply andb_assoc]. Qed.

(** A blank string holds no ['@'], so no owner is matched in it. *)
Lemma search_owner_blank pv s : blank s = true -> search ownerPattern pv s = None.
Proof.
  revert pv. induction s as [| c s IH]; intros pv Hb; [reflexivity |].
  unfold blank in Hb. cbn in Hb. apply andb_true_iff in Hb as [Hc Hb].
  cbn [search]. unfold ownerPattern. rewrite mt_seq_eq, char_none.
  - apply IH. exact Hb.
  - destruct (Ascii.eqb_spec "@" c) as [<- | ]; [discriminate | reflexivity].
Qed.

Lemma parse_line_blank owners l : blank l = true -> parse_line owners l = owners.
Proof.
  intros H. unfold parse_line. rewrite H, orb_true_r. reflexivity.
Qed.

(** Text after a ['#'] on a CODEOWNERS line never contributes an owner:
    appending ["#..."] to a line without ['#'] leaves what the line
    contributes unchanged (a line starting with ['#'] contributes
    nothing). *)
Theorem parse_line_ignores_inline_comment owners l t :
  includes l "#" = false ->
  parse_line owners (l ++ String "#" t) = parse_line owners l.
Proof.
  intros Hl. apply includes_char_none in Hl.
  destruct l as [| c l0].
  - unfold parse_line. cbn [append].
    replace (String.prefix "#" (String "#" t)) with true by (destruct t; reflexivity).
    reflexivity.
  - assert (Hc : Ascii.eqb c "#" = false).
    { cbn in Hl. destruct (Ascii.eqb c "#"); [discriminate | reflexivity]. }
    assert (Hp : forall u, String.prefix "#" (String c u) = false).
    { intros u. cbn [String.prefix].
      destruct (ascii_dec "#" c) as [<- | _]; [discriminate | reflexivity]. }
    unfold parse_line.
    replace (String.prefix "#" (String c l0 ++ String "#" t)) with false
      by (symmetry; apply Hp).
    rewrite Hp, blank_app.
    replace (blank (String "#" t)) with false by reflexivity.
    rewrite andb_false_r. cbn [orb].
    rewrite (split_on_app "#" (String c l0) t Hl), (split_on_none "#" (String c l0) Hl).
    cbn [hd].
    destruct (blank (String c l0)) eqn:Eb; [| reflexivity].
    unfold match_all. destruct (String.length (String c l0)); cbn [all_matches];
      rewrite search_owner_blank by exact Eb; reflexivity.
Qed.

Lemma parse_line_ignores_inline_comment_witness :
  parse_line [] ("docs/ @alice " ++ String "#" " @mallory") = parse_line [] "docs/ @alice ".
Proof. apply parse_line_ignores_inline_comment. vm_compute. reflexivity. Defined.

End CodeownersExtras.

(** * Properties of sendTelemetry *)

Module TelemetryExtras.
Import Coverage Telemetry Views.

Section Sends.
Variable clock : nat -> string.
Variable net : nat -> FetchOutcome.

Lemma warned_shape (o : FetchOutcome) :
  let w := match o with
           | Response status =>
               if response_ok status then []
               else [Warning ("Failed to send Axiom event: " ++ z_to_string status)]
           | FetchError message => [Warning ("Error sending Axiom event: " ++ message)]
           end in
  posted_payloads w = [] /\ post_headers w = [] /\
  warning_count w = if send_failed o then 1 else 0.
Proof.
  destruct o as [status | message]; cbn; [| repeat split].
  destruct (response_ok status); cbn; repeat split.
Qed.

Lemma send_events_spec token rc i events :
  let effs := send_events clock net token rc i events in
  map pl_event (posted_payloads effs) = events /\
  map pl_timestamp (posted_payloads effs) = map clock (seq i (length events)) /\
  Forall (fun pl => pl_workflow pl = run_workflow rc /\ pl_run_id pl = run_id rc /\
                    pl_sha pl = run_sha rc /\ pl_ref pl = run_ref rc /\
                    pl_pr_number pl = pull_number (run_payload rc))
    (posted_payloads effs) /\
  post_headers effs = repeat ("Bearer " ++ token) (length events) /\
  warning_count effs = length (filter (fun k => send_failed (net k)) (seq i (length events))).
Proof.
  revert i. induction events as [| e events IH]; intros i; [cbn; repeat split; constructor |].
  cbn [send_events length seq].
  destruct (warned_shape (net i)) as [Hp [Hh Hw]].
  destruct (IH (S i)) as [IH1 [IH2 [IH3 [IH4 IH5]]]].
  set (w := match net i with
            | Response status =>
                if response_ok status then []
                else [Warning ("Failed to send Axiom event: " ++ z_to_string status)]
            | FetchError message => [Warning ("Error sending Axiom event: " ++ message)]
            end) in *.
  set (rest := send_events clock net token rc (S i) events) in *.
  unfold posted_payloads, post_headers, warning_count in *.
  cbn [flat_map filter]. rewrite !flat_map_app, Hp, Hh. cbn [app].
  rewrite filter_app, length_app, Hw.
  repeat split.
  - cbn [map]. f_equal. exact IH1.
  - cbn [map]. f_equal. exact IH2.
  - constructor; [cbn; repeat split | exact IH3].
  - cbn [repeat]. f_equal. exact IH4.
  - cbn [filter]. rewrite IH5. destruct (send_failed (net i)); reflexivity.
Qed.

End Sends.

(** [sendTelemetry] without a token (unset or empty) only warns and posts
    nothing.  With a token it posts every event exactly once, in order,
    each as a one-record array carrying the run's workflow, run id, sha,
    ref and pull request number and the time of its request, with the
    header [Bearer <token>]; a failed request (non-2xx status or thrown
    error) adds one warning and never stops the events after it. *)
Theorem sendTelemetry_effects clock net events axiomToken rc :
  let effs := sendTelemetry clock net events axiomToken rc in
  match axiomToken with
  | Some (String c t) =>
      map pl_event (posted_payloads effs) = events /\
      map pl_timestamp (posted_payloads effs) = map clock (seq 0 (length events)) /\
      Forall (fun pl => pl_workflow pl = run_workflow rc /\ pl_run_id pl = run_id rc /\
                        pl_sha pl = run_sha rc /\ pl_ref pl = run_ref rc /\
                        pl_pr_number pl = pull_number (run_payload rc))
        (posted_payloads effs) /\
      post_headers effs = repeat ("Bearer " ++ String c t) (length events) /\
      warning_count effs =
        length (filter (fun k => send_failed (net k)) (seq 0 (length events)))
  | _ => effs = [Warning "AXIOM_TOKEN not set - skipping telemetry"]
  end.
Proof.
  unfold sendTelemetry. destruct axiomToken as [[| c t]|]; [reflexivity | | reflexivity].
  apply send_events_spec.
Qed.

End TelemetryExtras.

(** * Properties of curl_with_retry *)

Module CurlExtras.
Import CurlRetry.

Lemma wrap64_id z : (0 <= z < 2 ^ 63)%Z -> wrap64 z = z.
Proof.
  intros H. unfold wrap64. rewrite Z.mod_small; [lia |].
  split; [lia |]. change (2 ^ 64)%Z with (2 ^ 63 + 2 ^ 63)%Z. lia.
Qed.

Section Loop.
Variable curl : Z -> Z * string.
Variable max_text : string.
Variable max : Z.
Variable base : Z.

(** A run failing with a retryable code goes on with the next attempt,
    after a pause when the attempt was not the last. *)
Lemma loop_retry fuel n ec file err sl code o :
  curl (Z.of_nat n + 1)%Z = (code, o) ->
  (exit_status code =? 0)%Z = false -> retryable (exit_status code) = true ->
  exists err',
    retry_loop curl max_text max base (S fuel) (Z.of_nat n + 1) ec file err sl n =
    retry_loop curl max_text max base fuel (Z.of_nat (S n) + 1) (exit_status code) o err'
      (if (Z.of_nat n + 1 <? max)%Z then app sl [backoff_delay base (Z.of_nat n + 1)]
       else sl) (S n).
Proof.
  intros E E0 Er. cbn [retry_loop]. rewrite E. cbv beta iota zeta.
  rewrite E0, Er. cbv beta iota.
  replace (Z.of_nat n + 1 + 1)%Z with (Z.of_nat (S n) + 1)%Z by lia.
  destruct (Z.of_nat n + 1 <? max)%Z; eexists; reflexivity.
Qed.

(** A run that succeeds, or fails with a code that is not retried, ends
    the call. *)
Lemma loop_stop fuel n ec file err sl code o :
  curl (Z.of_nat n + 1)%Z = (code, o) ->
  (exit_status code =? 0)%Z = true \/ retryable (exit_status code) = false ->
  retry_loop curl max_text max base (S fuel) (Z.of_nat n + 1) ec file err sl n =
  {| ret_code := exit_status code; out := o; warnings := err; sleeps := sl; calls := S n |}.
Proof.
  intros E H. cbn [retry_loop]. rewrite E. cbv beta iota zeta.
  destruct (exit_status code =? 0)%Z eqn:E0.
  - apply Z.eqb_eq in E0. rewrite E0. reflexivity.
  - destruct H as [H | ->]; [discriminate | reflexivity].
Qed.

(** One pass of the loop, entered after [n] runs of curl
    ([attempt = n + 1]) with [fuel] iterations left. *)
Lemma loop_facts fuel : forall n ec file err sl,
  let r := retry_loop curl max_text max base fuel (Z.of_nat n + 1) ec file err sl n in
  (n <= calls r <= n + fuel)%nat /\
  (0 < fuel -> n < calls r)%nat /\
  (calls r = n -> ret_code r = ec /\ out r = file /\ sleeps r = sl) /\
  ((n < calls r)%nat -> ret_code r = exit_status (fst (curl (Z.of_nat (calls r)))) /\
                        out r = snd (curl (Z.of_nat (calls r)))) /\
  (forall k, (n < k < calls r)%nat -> retryable (exit_status (fst (curl (Z.of_nat k)))) = true) /\
  ((calls r < n + fuel)%nat -> ret_code r = 0%Z \/ retryable (ret_code r) = false).
Proof.
  induction fuel as [| fuel IH]; intros n ec file err sl.
  - cbn [retry_loop calls ret_code out sleeps]. repeat split; intros; lia.
  - destruct (curl (Z.of_nat n + 1)%Z) as [code o] eqn:E.
    assert (HS : Z.of_nat (S n) = (Z.of_nat n + 1)%Z) by lia.
    destruct (exit_status code =? 0)%Z eqn:E0;
      [| destruct (retryable (exit_status code)) eqn:Er].
    + rewrite (loop_stop fuel n ec file err sl code o E (or_introl E0)).
      apply Z.eqb_eq in E0. cbn [calls ret_code out sleeps].
      rewrite HS, E. cbn [fst snd]. repeat split; intros; try lia; auto.
    + destruct (loop_retry fuel n ec file err sl code o E E0 Er) as [err' ->].
      set (sl' := if (Z.of_nat n + 1 <? max)%Z then _ else sl).
      destruct (IH (S n) (exit_status code) o err' sl') as [H1 [H0 [H2 [H3 [H4 H5]]]]].
      set (r := retry_loop curl max_text max base fuel (Z.of_nat (S n) + 1)
                  (exit_status code) o err' sl' (S n)) in *.
      split; [lia |]. split; [lia |]. split; [intros; lia |]. split.
      { intros _. destruct (Nat.eq_dec (calls r) (S n)) as [Heq | Hne].
        - destruct (H2 Heq) as [-> [-> _]]. rewrite Heq, HS, E. split; reflexivity.
        - apply H3. lia. }
      split.
      { intros k Hk. destruct (Nat.eq_dec k (S n)) as [-> | Hne];
          [rewrite HS, E; exact Er | apply H4; lia]. }
      { intros Hlt. apply H5. lia. }
    + rewrite (loop_stop fuel n ec file err sl code o E (or_intror Er)).
      cbn [calls ret_code out sleeps]. rewrite HS, E. cbn [fst snd].
      repeat split; intros; try lia; auto.
Qed.

Lemma loop_sleeps fuel : forall n ec file err sl,
  (fuel = O \/ Z.of_nat (n + fuel) = max) ->
  let r := retry_loop curl max_text max base fuel (Z.of_nat n + 1) ec file err sl n in
  sleeps r = app sl (map (fun k => backoff_delay base (Z.of_nat k)) (seq (S n) (calls r - S n))).
Proof.
  induction fuel as [| fuel IH]; intros n ec file err sl Hinv; cbv zeta.
  - cbn [retry_loop calls sleeps]. replace (n - S n) with O by lia. cbn.
    symmetry; apply app_nil_r.
  - destruct (curl (Z.of_nat n + 1)%Z) as [code o] eqn:E.
    destruct (exit_status code =? 0)%Z eqn:E0;
      [| destruct (retryable (exit_status code)) eqn:Er].
    + rewrite (loop_stop fuel n ec file err sl code o E (or_introl E0)).
      cbn [calls sleeps]. rewrite Nat.sub_diag. cbn. symmetry; apply app_nil_r.
    + destruct (loop_retry fuel n ec file err sl code o E E0 Er) as [err' ->].
      destruct Hinv as [Hf | Hm]; [discriminate |].
      destruct (Z.of_nat n + 1 <? max)%Z eqn:Elt.
      * apply Z.ltb_lt in Elt.
        set (d := backoff_delay base (Z.of_nat n + 1)).
        rewrite IH by (right; lia).
        destruct (loop_facts fuel (S n) (exit_status code) o err' (app sl [d]))
          as [_ [H0 _]].
        set (r := retry_loop curl max_text max base fuel (Z.of_nat (S n) + 1)
                    (exit_status code) o err' (app sl [d]) (S n)) in *.
        assert (Hc : (S (S n) <= calls r)%nat) by (apply H0; lia).
        replace (calls r - S n) with (S (calls r - S (S n))) by lia.
        cbn [seq map]. rewrite <- app_assoc. cbn [app]. unfold d.
        replace (Z.of_nat n + 1)%Z with (Z.of_nat (S n)) by lia. reflexivity.
      * apply Z.ltb_ge in Elt. assert (fuel = O) as -> by lia.
        cbn [retry_loop calls sleeps]. rewrite Nat.sub_diag. cbn.
        symmetry; apply app_nil_r.
    + rewrite (loop_stop fuel n ec file err sl code o E (or_intror Er)).
      cbn [calls sleeps]. rewrite Nat.sub_diag. cbn. symmetry; apply app_nil_r.
Qed.

End Loop.

(** [curl_with_retry] runs curl at most [CURL_RETRY_MAX] times, and not at
    all when that value is 0 or less, in which case it returns status 0
    with empty output.  Otherwise its status and output are those of the
    last run; every run before the last failed with a retryable code (7,
    28 or 56); and it stops before [CURL_RETRY_MAX] runs only on success
    or on a non-retryable code. *)
Theorem curl_with_retry_outcome curl max_text max base :
  let r := curl_with_retry curl max_text max base in
  (calls r <= Z.to_nat max)%nat /\
  (calls r = O <-> (max <= 0)%Z) /\
  (calls r = O -> ret_code r = 0%Z /\ out r = EmptyString /\ sleeps r = []) /\
  ((0 < calls r)%nat -> ret_code r = exit_status (fst (curl (Z.of_nat (calls r)))) /\
                        out r = snd (curl (Z.of_nat (calls r)))) /\
  (forall k, (0 < k < calls r)%nat -> retryable (exit_status (fst (curl (Z.of_nat k)))) = true) /\
  ((calls r < Z.to_nat max)%nat -> ret_code r = 0%Z \/ retryable (ret_code r) = false).
Proof.
  unfold curl_with_retry.
  destruct (loop_facts curl max_text max base (Z.to_nat max) 0 0 EmptyString [] [])
    as [H1 [H0 [H2 [H3 [H4 H5]]]]].
  cbn [Z.of_nat Z.add] in *.
  set (r := retry_loop curl max_text max base (Z.to_nat max) 1 0 "" [] [] 0) in *.
  split; [lia |]. split.
  { split; intros H; [| lia]. destruct (Z_le_gt_dec max 0) as [Hle | Hgt]; [exact Hle |].
    assert (Hf : (0 < Z.to_nat max)%nat) by lia. specialize (H0 Hf). lia. }
  split; [exact H2 |]. split; [exact H3 |]. split; [exact H4 | exact H5].
Qed.

(** The pauses between runs double: before run [k + 1] the helper sleeps
    [CURL_RETRY_BASE_DELAY * 2^(k-1)] seconds, one pause per run but the
    last, as long as the delays fit in bash's 64-bit arithmetic. *)
Theorem curl_with_retry_backoff curl max_text max base :
  (0 <= base)%Z -> (base * 2 ^ max < 2 ^ 63)%Z ->
  let r := curl_with_retry curl max_text max base in
  sleeps r = map (fun k => base * 2 ^ (Z.of_nat k - 1))%Z (seq 1 (calls r - 1)).
Proof.
  intros Hb Hmax. unfold curl_with_retry.
  pose proof (loop_sleeps curl max_text max base (Z.to_nat max) 0 0 EmptyString [] [])
    as Hs.
  destruct (loop_facts curl max_text max base (Z.to_nat max) 0 0 EmptyString [] [])
    as [H1 _].
  cbn [Z.of_nat Z.add] in *.
  set (r := retry_loop curl max_text max base (Z.to_nat max) 1 0 "" [] [] 0) in *.
  rewrite Hs by lia. cbn [app]. apply map_ext_in.
  intros k Hk. apply in_seq in Hk.
  assert (Hk1 : (1 <= Z.of_nat k)%Z) by lia.
  assert (Hkm : (Z.of_nat k - 1 < max)%Z) by lia.
  unfold backoff_delay. rewrite Z.shiftl_1_l.
  assert (Hp : (2 ^ (Z.of_nat k - 1) <= 2 ^ max)%Z)
    by (apply Z.pow_le_mono_r; lia).
  assert (Hpos : (0 < 2 ^ (Z.of_nat k - 1))%Z) by (apply Z.pow_pos_nonneg; lia).
  destruct (Z.eq_dec base 0) as [-> | Hb0].
  - cbn. reflexivity.
  - rewrite (wrap64_id (2 ^ (Z.of_nat k - 1))) by nia.
    apply wrap64_id. nia.
Qed.

Lemma curl_with_retry_backoff_witness :
  let r := curl_with_retry (fun _ => (28%Z, EmptyString)) "4" 4 1 in
  sleeps r = map (fun k => 1 * 2 ^ (Z.of_nat k - 1))%Z (seq 1 (calls r - 1)).
Proof.
  apply (curl_with_retry_backoff (fun _ => (28%Z, EmptyString)) "4" 4 1);
    [lia | reflexivity].
Defined.

End CurlExtras.

(** * Properties of formatPlanComment *)

Module CommentExtras.
Import Regex Plan Coverage PlanComment Views GateExtras PlanProofs.

Lemma filter_and {A} (f g : A -> bool) l :
  filter f (filter g l) = filter (fun x => g x && f x) l.
Proof.
  induction l as [| x l IH]; cbn; [reflexivity |].
  destruct (g x); cbn; [destruct (f x); cbn |]; rewrite IH; reflexivity.
Qed.

Lemma NoDup_map_same {A B} (f : A -> B) l a b :
  NoDup (map f l) -> In a l -> In b l -> f a = f b -> a = b.
Proof.
  induction l as [| x l IH]; cbn; [intros _ [] |].
  intros Hnd Ha Hb Heq. inversion Hnd as [| ? ? Hnin Hnd']; subst.
  destruct Ha as [<- | Ha], Hb as [<- | Hb]; try reflexivity.
  - exfalso. apply Hnin. rewrite Heq. apply in_map. exact Hb.
  - exfalso. apply Hnin. rewrite <- Heq. apply in_map. exact Ha.
  - exact (IH Hnd' Ha Hb Heq).
Qed.

Lemma fold_delete ds st :
  let st' := fold_left (fun s c => delete_comment (comment_id c) s) ds st in
  comments st' =
    filter (fun c => forallb (fun d => negb (comment_id c =? comment_id d)%Z) ds)
      (comments st) /\
  next_id st' = next_id st.
Proof.
  revert st. induction ds as [| d ds IH]; intros st; cbn [fold_left].
  - split; [| reflexivity]. cbn [forallb]. induction (comments st) as [| c cs IHc];
      cbn [filter]; [reflexivity | f_equal; exact IHc].
  - destruct (IH (delete_comment (comment_id d) st)) as [H1 H2].
    split; [| exact H2]. rewrite H1. cbn [comments delete_comment].
    rewrite filter_and. apply filter_ext. intros c. reflexivity.
Qed.

Lemma body_marked b m mn plan ts a : includes (comment_text b m mn plan ts a) m = true.
Proof. unfold comment_text. destruct b; apply (includes_app EmptyString m). Qed.

Lemma length_app (a b : string) : String.length (a ++ b) = String.length a + String.length b.
Proof. induction a as [| c a IH]; cbn; [reflexivity | rewrite IH; reflexivity]. Qed.

Lemma take_length_le n s : String.length (take n s) <= n.
Proof.
  revert s. induction n as [| n IH]; intros [| c s]; cbn; try lia.
  specialize (IH s). lia.
Qed.

Lemma body_length b m mn plan ts a :
  String.length (comment_text b m mn plan ts a) <=
  String.length m + String.length mn + String.length ts + String.length a + 60000 + 173.
Proof.
  pose proof (take_length_le 60000 plan).
  unfold comment_text, NL. destruct b; rewrite !length_app; cbn [String.length]; lia.
Qed.

Lemma written_deletes i l :
  written_bodies (ListComments i :: map (fun c => DeleteComment (comment_id c)) l) = [].
Proof.
  unfold written_bodies. induction l as [| c l IH]; cbn [flat_map map app];
    [reflexivity | exact IH].
Qed.


(** On a pull request with a usable marker and changes in the plan, the
    decision to update or create. *)
Lemma upsert_result p ts st m issue :
  truthy_number (issue_number p) = Some issue -> marker p = Some m -> blank m = false ->
  exitcode p <> "0" ->
  exists body, includes body m = true /\
    formatPlanComment p ts st =
    match find (fun c => includes (comment_body c) m) (comments st) with
    | Some existing =>
        (Returned, update_comment (comment_id existing) body st,
         [ListComments issue; UpdateComment (comment_id existing) body])
    | None => (Returned, create_comment body st, [ListComments issue; CreateComment issue body])
    end.
Proof.
  intros Hi Hm Hb He. unfold formatPlanComment. rewrite Hi, Hm, Hb.
  replace (String.eqb (exitcode p) "0") with false
    by (symmetry; apply String.eqb_neq; exact He).
  eexists. split; [apply body_marked | reflexivity].
Qed.

(** Outside a pull request, or with a missing or blank marker,
    [formatPlanComment] makes no call to GitHub and leaves the comments as
    they are; the blank marker is reported by throwing. *)
Theorem formatPlanComment_guards p ts st :
  truthy_number (issue_number p) = None \/ (forall m, marker p = Some m -> blank m = true) ->
  let '(o, st', calls) := formatPlanComment p ts st in
  st' = st /\ github_calls calls = [] /\
  (truthy_number (issue_number p) = None -> o = Returned) /\
  (truthy_number (issue_number p) <> None -> o = Threw markerError).
Proof.
  intros H. unfold formatPlanComment.
  destruct (truthy_number (issue_number p)) as [issue|] eqn:Ei;
    [| cbn; repeat split; congruence].
  destruct H as [H | H]; [discriminate |].
  destruct (marker p) as [m|]; [rewrite (H m eq_refl) |]; cbn; repeat split; congruence.
Qed.

Lemma formatPlanComment_guards_witness :
  let p := {| issue_number := Some 12%Z; plan_file := Some "Plan: 1 to add";
              exitcode := "2"; marker := Some "   "; enableCollapse := true;
              actor := "alice"; moduleName := "workers" |} in
  let st := {| comments := [{| comment_id := 1%Z; comment_body := "lgtm" |}];
               next_id := 2%Z |} in
  let '(o, st', calls) := formatPlanComment p "2026-01-01T00:00:00.000Z" st in
  st' = st /\ github_calls calls = [] /\
  (truthy_number (issue_number p) = None -> o = Returned) /\
  (truthy_number (issue_number p) <> None -> o = Threw markerError).
Proof.
  intros p st. apply formatPlanComment_guards. right.
  intros m Hm. injection Hm as <-. reflexivity.
Defined.

(** A plan without changes ([exitcode] ["0"]) deletes exactly the
    comments whose body contains the marker, one call each, keeps all the
    others in order and creates nothing (comment ids being distinct). *)
Theorem formatPlanComment_no_changes_deletes p ts st m issue :
  truthy_number (issue_number p) = Some issue -> marker p = Some m -> blank m = false ->
  exitcode p = "0" -> NoDup (map comment_id (comments st)) ->
  let '(o, st', calls) := formatPlanComment p ts st in
  o = Returned /\ comments st' = unmarked m (comments st) /\ next_id st' = next_id st /\
  calls = ListComments issue :: map (fun c => DeleteComment (comment_id c))
                                  (marked m (comments st)).
Proof.
  intros Hi Hm Hb He Hnd. unfold formatPlanComment. rewrite Hi, Hm, Hb, He.
  cbn [String.eqb Ascii.eqb Bool.eqb].
  destruct (fold_delete (marked m (comments st)) st) as [H1 H2].
  unfold marked in H1 |- *.
  repeat split; [| exact H2].
  rewrite H1. unfold unmarked. apply filter_ext_in. intros c Hc.
  destruct (includes (comment_body c) m) eqn:E; cbn [negb].
  - destruct (forallb _ _) eqn:Ea; [| reflexivity].
    rewrite forallb_forall in Ea.
    assert (Hcm : In c (filter (fun c => includes (comment_body c) m) (comments st)))
      by (apply filter_In; split; assumption).
    specialize (Ea c Hcm). rewrite Z.eqb_refl in Ea. discriminate.
  - apply forallb_forall. intros d Hd. apply filter_In in Hd as [Hd Em].
    destruct (comment_id c =? comment_id d)%Z eqn:Eq; [| reflexivity].
    apply Z.eqb_eq in Eq. rewrite (NoDup_map_same comment_id _ c d Hnd Hc Hd Eq) in E.
    congruence.
Qed.

Lemma formatPlanComment_no_changes_deletes_witness :
  let p := {| issue_number := Some 12%Z; plan_file := None;
              exitcode := "0"; marker := Some "<!-- tf-workers -->"; enableCollapse := false;
              actor := "alice"; moduleName := "workers" |} in
  let st := {| comments := [{| comment_id := 1%Z; comment_body := "<!-- tf-workers --> old" |};
                            {| comment_id := 2%Z; comment_body := "lgtm" |}];
               next_id := 3%Z |} in
  let '(o, st', calls) := formatPlanComment p "2026-01-01T00:00:00.000Z" st in
  o = Returned /\ comments st' = unmarked "<!-- tf-workers -->" (comments st) /\
  next_id st' = next_id st /\
  calls = ListComments 12 :: map (fun c => DeleteComment (comment_id c))
                               (marked "<!-- tf-workers -->" (comments st)).
Proof.
  intros p st. apply formatPlanComment_no_changes_deletes; try reflexivity.
  vm_compute. repeat constructor; intros H; vm_compute in H; intuition discriminate.
Defined.



(** After one run with changes, a later run with the same marker (and
    changes again, whatever the plan or time) only updates: it creates no
    comment and keeps every comment id. *)
Theorem formatPlanComment_rerun_updates p p' ts ts' st m :
  truthy_number (issue_number p) <> None -> truthy_number (issue_number p') <> None ->
  marker p = Some m -> marker p' = Some m -> blank m = false ->
  exitcode p <> "0" -> exitcode p' <> "0" ->
  let st1 := snd (fst (formatPlanComment p ts st)) in
  let st2 := snd (fst (formatPlanComment p' ts' st1)) in
  map comment_id (comments st2) = map comment_id (comments st1) /\ next_id st2 = next_id st1.
Proof.
  intros Hi Hi' Hm Hm' Hb He He'.
  destruct (truthy_number (issue_number p)) as [i|] eqn:Ei; [| congruence].
  destruct (truthy_number (issue_number p')) as [i'|] eqn:Ei'; [| congruence].
  cbv zeta.
  assert (Hex : exists c, In c (comments (snd (fst (formatPlanComment p ts st)))) /\
                          includes (comment_body c) m = true).
  { destruct (upsert_result p ts st m i Ei Hm Hb He) as [body [Hbody ->]].
    destruct (find (fun c => includes (comment_body c) m) (comments st)) as [ex|] eqn:Ef.
    - apply find_some in Ef as [Hin _]. cbn [fst snd comments update_comment].
      eexists. split; [apply in_map_iff; exists ex; split; [| exact Hin] |].
      + rewrite Z.eqb_refl. reflexivity.
      + exact Hbody.
    - cbn [fst snd comments create_comment]. eexists. split.
      + apply in_or_app. right. left. reflexivity.
      + exact Hbody. }
  set (st1 := snd (fst (formatPlanComment p ts st))) in *.
  destruct (upsert_result p' ts' st1 m i' Ei' Hm' Hb He') as [body' [_ ->]].
  destruct (find (fun c => includes (comment_body c) m) (comments st1)) as [ex|] eqn:Ef.
  - cbn [fst snd comments update_comment next_id]. split; [| reflexivity].
    rewrite map_map. apply map_ext. intros c.
    destruct (comment_id c =? comment_id ex)%Z eqn:Eq; [| reflexivity].
    apply Z.eqb_eq in Eq. cbn. congruence.
  - exfalso. destruct Hex as [c [Hc Hcm]].
    rewrite (find_none _ _ Ef c Hc) in Hcm. discriminate.
Qed.

Lemma formatPlanComment_rerun_updates_witness :
  let p := {| issue_number := Some 12%Z; plan_file := Some "Plan: 1 to add, 0 to change, 0 to destroy";
              exitcode := "2"; marker := Some "<!-- tf-workers -->"; enableCollapse := true;
              actor := "alice"; moduleName := "workers" |} in
  let st := {| comments := []; next_id := 1%Z |} in
  let st1 := snd (fst (formatPlanComment p "t1" st)) in
  let st2 := snd (fst (formatPlanComment p "t2" st1)) in
  map comment_id (comments st2) = map comment_id (comments st1) /\ next_id st2 = next_id st1.
Proof.
  intros p st. apply (formatPlanComment_rerun_updates p p _ _ st "<!-- tf-workers -->");
    try reflexivity; discriminate.
Defined.

(** Every comment body written holds at most the first 60000 characters of
    the plan: its length is bounded by the lengths of the marker, module
    name, timestamp and actor plus 60000 and the 173 characters of the
    longer template. *)
Theorem formatPlanComment_body_size p ts st m :
  marker p = Some m ->
  Forall (fun b => String.length b <=
                   String.length m + String.length (moduleName p) + String.length ts
                   + String.length (actor p) + 60000 + 173)
    (written_bodies (snd (formatPlanComment p ts st))).
Proof.
  intros Hm. unfold formatPlanComment. rewrite Hm.
  destruct (truthy_number (issue_number p)); [| constructor].
  destruct (blank m); [constructor |].
  destruct (String.eqb (exitcode p) "0"); cbv zeta.
  - cbn [snd fst]. rewrite written_deletes. apply Forall_nil.
  - destruct (find _ _); cbn [snd fst]; unfold written_bodies; cbn [flat_map app];
      (apply Forall_cons; [apply body_length | apply Forall_nil]).
Qed.

Lemma formatPlanComment_body_size_witness :
  let p := {| issue_number := Some 12%Z; plan_file := None;
              exitcode := "1"; marker := Some "<!-- tf -->"; enableCollapse := false;
              actor := "alice"; moduleName := "workers" |} in
  Forall (fun b => String.length b <=
                   String.length "<!-- tf -->" + String.length (moduleName p)
                   + String.length "t" + String.length (actor p) + 60000 + 173)
    (written_bodies (snd (formatPlanComment p "t" {| comments := []; next_id := 1%Z |}))).
Proof.
  intros p.
  exact (formatPlanComment_body_size p "t" {| comments := []; next_id := 1%Z |}
           "<!-- tf -->" eq_refl).
Defined.

End CommentExtras.
